(** * chatgpt-mac: the Electron main process of a desktop wrapper ([index.js])

    A shallow embedding of [index.js].  The module-level variables
    [mainWindow] and [notesWindow], the windows built by [new BrowserWindow],
    the registrations made with Electron ([Menu], [globalShortcut], [app.on])
    and the pending promises of the [async] functions are fields of one
    [state]; every function of the file is a function on that state, and the
    event loop is [step].  What Electron and Node do for the program
    (dialogs, the clipboard, the file system, the console) is recorded in an
    effect log, and the answers they give back (the outcome of a dialog, a
    rejected promise) arrive as events. *)

From Stdlib Require Import ZArith Lia Bool List String Ascii Floats.
From stdpp Require Import base list strings.
Import ListNotations.

Set Warnings "-inexact-float".
Local Open Scope string_scope.

(** ** JavaScript values the program computes with *)

Module JS.

(** A JavaScript number is a binary64 float. *)
Abbreviation number := float (only parsing).

(** A string that may be [undefined]. *)
Definition maybe_string := option string.

(** [!x] for a string or [undefined]: the empty string and [undefined] are
    falsy. *)
Definition falsy (x : maybe_string) : bool :=
  match x with
  | None => true
  | Some EmptyString => true
  | Some (String _ _) => false
  end.

(** [x || d] on such a value. *)
Definition or_else (x : maybe_string) (d : string) : string :=
  match x with
  | Some (String c r) => String c r
  | _ => d
  end.

(** A thrown value or the reason of a rejected promise: what [err.message]
    reads ([None] when there is no such property) and what [String(err)]
    gives. *)
Record error := { message : maybe_string; toString : string }.

(** [String(err.message || err)]. *)
Definition message_or_self (err : error) : string :=
  or_else (message err) (toString err).

(** [Math.max(a, b)]: [NaN] when an argument is [NaN], and [+0] above [-0]. *)
Definition Math_max (a b : number) : number :=
  if is_nan a || is_nan b then nan
  else if (a <? b)%float then b
  else if (b <? a)%float then a
  else if is_zero a && get_sign a then b
  else a.

Definition is_upper (n : nat) := (65 <=? n)%nat && (n <=? 90)%nat.
Definition is_lower (n : nat) := (97 <=? n)%nat && (n <=? 122)%nat.
Definition is_digit (n : nat) := (48 <=? n)%nat && (n <=? 57)%nat.

(** The characters [encodeURIComponent] leaves alone:
    [A-Z a-z 0-9 - _ . ! ~ * ' ( )]. *)
Definition unreserved (c : ascii) : bool :=
  let n := nat_of_ascii c in
  is_upper n || is_lower n || is_digit n
  || existsb (Nat.eqb n) [45; 95; 46; 33; 126; 42; 39; 40; 41]%nat.

Definition hex_digit (n : nat) : ascii :=
  ascii_of_nat (if (n <? 10)%nat then 48 + n else 55 + n).

(** [encodeURIComponent] on the UTF-8 bytes of a well-formed string: every
    other byte becomes [%XX]. *)
Fixpoint encodeURIComponent (s : string) : string :=
  match s with
  | EmptyString => EmptyString
  | String c r =>
      if unreserved c then String c (encodeURIComponent r)
      else
        let n := nat_of_ascii c in
        String "%" (String (hex_digit (n / 16)) (String (hex_digit (n mod 16))
          (encodeURIComponent r)))
  end.


End JS.

(** ** Windows *)

(** A window is known by its position in the table of all the windows the
    process has built. *)
Abbreviation handle := nat (only parsing).

(** Which constructor call built a window: the one of [createMainWindow] or
    the one of [createNotesWindow].  The program keeps no such field; it is
    what [PrimaryWindowHandle] and [NotesWindowHandle] mean. *)
Inductive window_kind := PrimaryWindow | NotesWindow.

(** The three closures the program hands to [on] and [once]. *)
Inductive listener :=
| ClearMainWindow      (* () => { mainWindow = null; } *)
| ClearNotesWindow     (* () => { notesWindow = null; } *)
| ShowMainWindow.      (* () => { if (mainWindow) mainWindow.show(); } *)

Record WebPreferences := {
  preload : option string;
  spellcheck : bool;
  contextIsolation : bool;
  nodeIntegration : bool
}.

(** The argument of [new BrowserWindow]. *)
Record WindowOptions := {
  opt_width : Z;
  opt_height : Z;
  opt_title : string;
  opt_show : bool;
  opt_backgroundColor : string;
  opt_webPreferences : WebPreferences
}.

Record WebContents := {
  URL : string;
  zoomFactor : JS.number;
  reloads : nat
}.

Record BrowserWindow := {
  kind : window_kind;
  options : WindowOptions;
  size : Z * Z;
  centered : bool;
  visible : bool;
  minimized : bool;
  fullScreen : bool;
  alwaysOnTop : bool;
  destroyed : bool;
  webContents : WebContents;
  on_closed : list listener;
  once_ready_to_show : list listener
}.

Definition with_webContents (f : WebContents -> WebContents) (w : BrowserWindow) :=
  {| kind := kind w; options := options w; size := size w; centered := centered w;
     visible := visible w; minimized := minimized w; fullScreen := fullScreen w;
     alwaysOnTop := alwaysOnTop w; destroyed := destroyed w;
     webContents := f (webContents w);
     on_closed := on_closed w; once_ready_to_show := once_ready_to_show w |}.

Definition with_geometry (sz : Z * Z) (c : bool) (w : BrowserWindow) :=
  {| kind := kind w; options := options w; size := sz; centered := c;
     visible := visible w; minimized := minimized w; fullScreen := fullScreen w;
     alwaysOnTop := alwaysOnTop w; destroyed := destroyed w;
     webContents := webContents w;
     on_closed := on_closed w; once_ready_to_show := once_ready_to_show w |}.

Definition with_visible (b : bool) (w : BrowserWindow) :=
  {| kind := kind w; options := options w; size := size w; centered := centered w;
     visible := b; minimized := minimized w; fullScreen := fullScreen w;
     alwaysOnTop := alwaysOnTop w; destroyed := destroyed w;
     webContents := webContents w;
     on_closed := on_closed w; once_ready_to_show := once_ready_to_show w |}.

Definition with_minimized (b : bool) (w : BrowserWindow) :=
  {| kind := kind w; options := options w; size := size w; centered := centered w;
     visible := visible w; minimized := b; fullScreen := fullScreen w;
     alwaysOnTop := alwaysOnTop w; destroyed := destroyed w;
     webContents := webContents w;
     on_closed := on_closed w; once_ready_to_show := once_ready_to_show w |}.

Definition with_fullScreen (b : bool) (w : BrowserWindow) :=
  {| kind := kind w; options := options w; size := size w; centered := centered w;
     visible := visible w; minimized := minimized w; fullScreen := b;
     alwaysOnTop := alwaysOnTop w; destroyed := destroyed w;
     webContents := webContents w;
     on_closed := on_closed w; once_ready_to_show := once_ready_to_show w |}.

Definition with_alwaysOnTop (b : bool) (w : BrowserWindow) :=
  {| kind := kind w; options := options w; size := size w; centered := centered w;
     visible := visible w; minimized := minimized w; fullScreen := fullScreen w;
     alwaysOnTop := b; destroyed := destroyed w;
     webContents := webContents w;
     on_closed := on_closed w; once_ready_to_show := once_ready_to_show w |}.

Definition with_on_closed (ls : list listener) (w : BrowserWindow) :=
  {| kind := kind w; options := options w; size := size w; centered := centered w;
     visible := visible w; minimized := minimized w; fullScreen := fullScreen w;
     alwaysOnTop := alwaysOnTop w; destroyed := destroyed w;
     webContents := webContents w;
     on_closed := ls; once_ready_to_show := once_ready_to_show w |}.

Definition with_once_ready_to_show (ls : list listener) (w : BrowserWindow) :=
  {| kind := kind w; options := options w; size := size w; centered := centered w;
     visible := visible w; minimized := minimized w; fullScreen := fullScreen w;
     alwaysOnTop := alwaysOnTop w; destroyed := destroyed w;
     webContents := webContents w;
     on_closed := on_closed w; once_ready_to_show := ls |}.

(** A closed window: destroyed, off the screen. *)
Definition mark_destroyed (w : BrowserWindow) :=
  {| kind := kind w; options := options w; size := size w; centered := centered w;
     visible := false; minimized := minimized w; fullScreen := fullScreen w;
     alwaysOnTop := alwaysOnTop w; destroyed := true;
     webContents := webContents w;
     on_closed := on_closed w; once_ready_to_show := once_ready_to_show w |}.

Definition set_URL (u : string) (wc : WebContents) :=
  {| URL := u; zoomFactor := zoomFactor wc; reloads := reloads wc |}.

Definition set_zoomFactor (f : JS.number) (wc : WebContents) :=
  {| URL := URL wc; zoomFactor := f; reloads := reloads wc |}.

Definition count_reload (wc : WebContents) :=
  {| URL := URL wc; zoomFactor := zoomFactor wc; reloads := S (reloads wc) |}.

(** ** What the process does to the outside, and what it waits for *)

(** The calls that leave the process, in the order they are made. *)
Inductive effect :=
| ShowSaveDialog (parent : handle) (title defaultPath filterName extension : string)
| ShowErrorBox (title content : string)
| ShowMessageBox (title message detail : string)
| ConsoleError (text : string) (err : option JS.error)
| ClipboardWriteText (text : string)
| OpenExternal (url : string)
| PrintToPDF (wc : handle) (pageSize : string) (printBackground : bool)
| ExecuteJavaScript (wc : handle) (code : string) (userGesture : bool)
| CapturePage (wc : handle)
| WriteFile (path data : string) (encoding : option string)
| UncaughtException (err : JS.error).

(** The three export actions: [saveChatAsPdf], [saveChatAsText],
    [screenshotWindow]. *)
Inductive export_kind := Pdf | Text | Screenshot.

(** Where a suspended piece of the program waits: one constructor for each
    [await] of the export functions, and one for the promise of
    [shell.openExternal]. *)
Inductive continuation :=
| AwaitSaveDialog (k : export_kind)
| AwaitContent (k : export_kind) (filePath : string)
| AwaitWriteFile (k : export_kind)
| AwaitOpenExternal.

(** What a promise resolves with: the object of [dialog.showSaveDialog], the
    bytes of [printToPDF] and of [capturePage().toPNG()] or the text of
    [executeJavaScript], and [undefined] for [writeFile] and [openExternal]. *)
Inductive value :=
| SaveDialogReturn (canceled : bool) (filePath : JS.maybe_string)
| Content (data : string)
| Undefined.

Inductive settlement :=
| Resolved (v : value)
| Rejected (err : JS.error).

(** The places where an export function is left: the first guard, the guard
    after the dialog, the end of the [try] block, the end of the [catch]
    block. *)
Inductive exit := NoWindow | CanceledPrompt | Completed | Caught.

(** How a call or a resumption of an asynchronous function ends: at the next
    [await], by returning, or by an exception that leaves the function (its
    promise rejects). *)
Inductive completion :=
| Suspended (c : continuation)
| Returned (via : exit)
| Threw (err : JS.error).

(** ** The application menu *)

(** The [click] closures of the menu template. *)
Inductive command :=
| NewChat | ReloadChat | CopyChatUrl | OpenInBrowser
| SaveChatAsPdf | SaveChatAsText | ScreenshotWindow
| ZoomIn | ZoomOut | ResetZoom | ResetWindowSize | ToggleFullScreen
| AlwaysOnTop | NotesWindowItem | AppInfo.

#[global] Instance command_eq_dec : EqDecision command.
Proof. solve_decision. Defined.

Inductive menu_entry :=
| Role (role : string)
| Separator
| Item (label : string) (accelerator : option string) (click : command).

Record submenu := { sub_label : string; entries : list menu_entry }.

Definition entry_command (e : menu_entry) : list command :=
  match e with
  | Item _ _ c => [c]
  | _ => []
  end.

(** The commands a menu offers. *)
Definition menu_commands (m : list submenu) : list command :=
  flat_map (fun sm => flat_map entry_command (entries sm)) m.

(** ** The state of the process *)

(** What the program has set up through [app], [Menu] and [globalShortcut].
    Every accelerator of [globalShortcuts] is bound to the one callback the
    program registers, [() => { ensureMainWindow(); }]. *)
Record App := {
  ready : bool;
  name : string;
  applicationMenu : list submenu;
  globalShortcuts : list string;
  on_activate : bool;
  quitting : bool
}.

(** [platform] is [process.platform]; [windows] holds every window built so
    far, destroyed or not; [mainWindow] and [notesWindow] are the two
    module-level variables ([None] for [null]); [pending] holds the suspended
    calls, a settled one leaving [None] at its place; [effects] is the log of
    the calls to the outside. *)
Record state := {
  platform : string;
  windows : list BrowserWindow;
  mainWindow : option handle;
  notesWindow : option handle;
  focused : option handle;
  app : App;
  pending : list (option continuation);
  effects : list effect
}.

Definition set_windows (ws : list BrowserWindow) (s : state) :=
  {| platform := platform s; windows := ws; mainWindow := mainWindow s;
     notesWindow := notesWindow s; focused := focused s; app := app s;
     pending := pending s; effects := effects s |}.

Definition set_mainWindow (v : option handle) (s : state) :=
  {| platform := platform s; windows := windows s; mainWindow := v;
     notesWindow := notesWindow s; focused := focused s; app := app s;
     pending := pending s; effects := effects s |}.

Definition set_notesWindow (v : option handle) (s : state) :=
  {| platform := platform s; windows := windows s; mainWindow := mainWindow s;
     notesWindow := v; focused := focused s; app := app s;
     pending := pending s; effects := effects s |}.

Definition set_focused (v : option handle) (s : state) :=
  {| platform := platform s; windows := windows s; mainWindow := mainWindow s;
     notesWindow := notesWindow s; focused := v; app := app s;
     pending := pending s; effects := effects s |}.

Definition set_app (a : App) (s : state) :=
  {| platform := platform s; windows := windows s; mainWindow := mainWindow s;
     notesWindow := notesWindow s; focused := focused s; app := a;
     pending := pending s; effects := effects s |}.

Definition set_pending (p : list (option continuation)) (s : state) :=
  {| platform := platform s; windows := windows s; mainWindow := mainWindow s;
     notesWindow := notesWindow s; focused := focused s; app := app s;
     pending := p; effects := effects s |}.

(** One more call to the outside. *)
Definition log (e : effect) (s : state) :=
  {| platform := platform s; windows := windows s; mainWindow := mainWindow s;
     notesWindow := notesWindow s; focused := focused s; app := app s;
     pending := pending s; effects := effects s ++ [e] |}.

Definition isMac (s : state) : bool := String.eqb (platform s) "darwin".

(** The process as the module's top level leaves it: [mainWindow] and
    [notesWindow] are [null], nothing is registered yet. *)
Definition boot (platform : string) : state :=
  {| platform := platform; windows := []; mainWindow := None; notesWindow := None;
     focused := None;
     app := {| ready := false; name := "Electron"; applicationMenu := [];
               globalShortcuts := []; on_activate := false; quitting := false |};
     pending := []; effects := [] |}.

(** ** Methods of [BrowserWindow] and [webContents] *)

Definition update_window (h : handle) (f : BrowserWindow -> BrowserWindow) (s : state) :=
  set_windows (alter f h (windows s)) s.

(** [w.isDestroyed()]. *)
Definition isDestroyed (h : handle) (s : state) : bool :=
  match windows s !! h with
  | Some w => destroyed w
  | None => true
  end.

Definition isMinimized (h : handle) (s : state) : bool :=
  match windows s !! h with
  | Some w => minimized w
  | None => false
  end.

Definition isFullScreen (h : handle) (s : state) : bool :=
  match windows s !! h with
  | Some w => fullScreen w
  | None => false
  end.

Definition isAlwaysOnTop (h : handle) (s : state) : bool :=
  match windows s !! h with
  | Some w => alwaysOnTop w
  | None => false
  end.

Definition getURL (wc : handle) (s : state) : string :=
  match windows s !! wc with
  | Some w => URL (webContents w)
  | None => EmptyString
  end.

Definition focus (h : handle) (s : state) := set_focused (Some h) s.

(** [w.show()] shows the window and gives it the focus. *)
Definition show (h : handle) (s : state) :=
  focus h (update_window h (with_visible true) s).

Definition restore (h : handle) (s : state) := update_window h (with_minimized false) s.

Definition loadURL (h : handle) (u : string) (s : state) :=
  update_window h (with_webContents (set_URL u)) s.

Definition reload (wc : handle) (s : state) :=
  update_window wc (with_webContents count_reload) s.

Definition setSize (h : handle) (width height : Z) (s : state) :=
  update_window h (fun w => with_geometry (width, height) false w) s.

Definition center (h : handle) (s : state) :=
  update_window h (fun w => with_geometry (size w) true w) s.

Definition setFullScreen (h : handle) (b : bool) (s : state) :=
  update_window h (with_fullScreen b) s.

Definition setAlwaysOnTop (h : handle) (b : bool) (s : state) :=
  update_window h (with_alwaysOnTop b) s.

Definition setZoomFactor (wc : handle) (f : JS.number) (s : state) :=
  update_window wc (with_webContents (set_zoomFactor f)) s.

(** [wc.getZoomFactor()]: the accessor is synchronous.  It returns the
    current factor and does nothing with an argument it is given: the
    function the program hands to it is never called. *)
Definition getZoomFactor (wc : handle) (argument : JS.number -> state -> state)
    (s : state) : JS.number * state :=
  (match windows s !! wc with
   | Some w => zoomFactor (webContents w)
   | None => nan
   end, s).

(** [new BrowserWindow(options)]: a window of its own, shown at once unless
    [show] is false, with a blank page at zoom factor 1. *)
Definition new_BrowserWindow (k : window_kind) (o : WindowOptions) (s : state)
    : handle * state :=
  (length (windows s),
   set_windows
     (windows s ++
      [{| kind := k; options := o; size := (opt_width o, opt_height o);
          centered := true; visible := opt_show o; minimized := false;
          fullScreen := false; alwaysOnTop := false; destroyed := false;
          webContents := {| URL := EmptyString; zoomFactor := 1%float; reloads := 0 |};
          on_closed := []; once_ready_to_show := [] |}]) s).

(** [w.on('closed', l)] and [w.once('ready-to-show', l)]. *)
Definition on_closed_add (h : handle) (l : listener) (s : state) :=
  update_window h (fun w => with_on_closed (on_closed w ++ [l]) w) s.

Definition once_ready_to_show_add (h : handle) (l : listener) (s : state) :=
  update_window h (fun w => with_once_ready_to_show (once_ready_to_show w ++ [l]) w) s.

(** [BrowserWindow.getAllWindows()]: the windows that are still open. *)
Definition getAllWindows (s : state) : list BrowserWindow :=
  filter (fun w => destroyed w = false) (windows s).

(** What a method call on a destroyed window throws, and what reading a
    property of [null] throws. *)
Definition destroyed_error : JS.error :=
  {| JS.message := Some "Object has been destroyed";
     JS.toString := "TypeError: Object has been destroyed" |}.

Definition null_error (property : string) : JS.error :=
  let m := "Cannot read properties of null (reading '" ++ property ++ "')" in
  {| JS.message := Some m; JS.toString := "TypeError: " ++ m |}.

(** ** The program: windows *)

Definition canonical_address : string := "https://chatgpt.com".

Definition mainWindowOptions : WindowOptions :=
  {| opt_width := 900; opt_height := 700; opt_title := "GPT"; opt_show := false;
     opt_backgroundColor := "#ffffff";
     opt_webPreferences :=
       {| preload := Some "preload.js"; spellcheck := false;
          contextIsolation := true; nodeIntegration := false |} |}.

Definition notesWindowOptions : WindowOptions :=
  {| opt_width := 400; opt_height := 500; opt_title := "GPT Notes"; opt_show := true;
     opt_backgroundColor := "#ffffff";
     opt_webPreferences :=
       {| preload := None; spellcheck := true;
          contextIsolation := false; nodeIntegration := false |} |}.

(** The window [mainWindow] refers to when the guard
    [!mainWindow || mainWindow.isDestroyed()] is false. *)
Definition live_main (s : state) : option handle :=
  match mainWindow s with
  | None => None
  | Some h => if isDestroyed h s then None else Some h
  end.

(** The same for [notesWindow && !notesWindow.isDestroyed()]. *)
Definition live_notes (s : state) : option handle :=
  match notesWindow s with
  | None => None
  | Some h => if isDestroyed h s then None else Some h
  end.

Definition createMainWindow (s : state) : state :=
  let (h, s) := new_BrowserWindow PrimaryWindow mainWindowOptions s in
  let s := set_mainWindow (Some h) s in
  let s := loadURL h canonical_address s in
  let s := once_ready_to_show_add h ShowMainWindow s in
  on_closed_add h ClearMainWindow s.

Definition ensureMainWindow (s : state) : state :=
  match live_main s with
  | None => createMainWindow s
  | Some h =>
      let s := if isMinimized h s then restore h s else s in
      let s := show h s in
      focus h s
  end.

Definition newChat (s : state) : state :=
  match live_main s with
  | None => createMainWindow s
  | Some h => loadURL h canonical_address s
  end.

Definition resetWindowSize (s : state) : state :=
  match live_main s with
  | None => s
  | Some h => center h (setSize h 900 700 s)
  end.

(** The document of the notes window, before [.trim()]. *)
Definition dq : string := String (ascii_of_nat 34) EmptyString.
Definition nl : string := String (ascii_of_nat 10) EmptyString.

Definition notes_template : string :=
  String.concat nl
    [ EmptyString;
      "<!doctype html>";
      "<html>";
      "<head>";
      "<meta charset=" ++ dq ++ "utf-8" ++ dq ++ " />";
      "<title>GPT Notes</title>";
      "<style>";
      "  body {";
      "    font-family: -apple-system, system-ui, sans-serif;";
      "    margin: 0;";
      "    padding: 8px;";
      "    background: #f5f5f5;";
      "  }";
      "  h1 {";
      "    font-size: 16px;";
      "    margin: 0 0 8px;";
      "  }";
      "  textarea {";
      "    width: 100%;";
      "    height: calc(100vh - 40px);";
      "    resize: none;";
      "    font-family: -apple-system, system-ui, sans-serif;";
      "    font-size: 13px;";
      "    padding: 6px;";
      "    box-sizing: border-box;";
      "  }";
      "</style>";
      "</head>";
      "<body>";
      "<h1>Notes</h1>";
      "<textarea placeholder=" ++ dq ++ "Type notes here…" ++ dq ++ "></textarea>";
      "</body>";
      "</html>" ].

Definition is_space (c : ascii) : bool :=
  let n := nat_of_ascii c in (n =? 32)%nat || ((9 <=? n)%nat && (n <=? 13)%nat).

Fixpoint trimStart (s : string) : string :=
  match s with
  | String c r => if is_space c then trimStart r else s
  | EmptyString => s
  end.

Definition reverse_string (s : string) : string :=
  string_of_list_ascii (rev (list_ascii_of_string s)).

(** [s.trim()], for the white space of ASCII. *)
Definition trim (s : string) : string :=
  reverse_string (trimStart (reverse_string (trimStart s))).

Definition notes_html : string := trim notes_template.

Definition notes_address : string :=
  "data:text/html;charset=utf-8," ++ JS.encodeURIComponent notes_html.

Definition createNotesWindow (s : state) : state :=
  match live_notes s with
  | Some h => focus h s
  | None =>
      let (h, s) := new_BrowserWindow NotesWindow notesWindowOptions s in
      let s := set_notesWindow (Some h) s in
      let s := loadURL h notes_address s in
      on_closed_add h ClearNotesWindow s
  end.

(** ** The program: command actions *)

Definition console_error (text : string) (err : JS.error) (s : state) :=
  log (ConsoleError text (Some err)) s.

Definition showErrorBox (title : string) (err : JS.error) (s : state) :=
  log (ShowErrorBox title (JS.message_or_self err)) s.

(** [copyChatUrl]; [fault] is what [clipboard.writeText] throws, if it does. *)
Definition copyChatUrl (fault : option JS.error) (s : state) : state :=
  match live_main s with
  | None => s
  | Some h =>
      let url := getURL h s in
      if JS.falsy (Some url) then s
      else
        match fault with
        | None => log (ClipboardWriteText url) s
        | Some err =>
            showErrorBox "Copy URL Failed" err
              (console_error "Failed to copy URL:" err s)
        end
  end.

Definition openInBrowser (s : state) : state * completion :=
  match live_main s with
  | None => (s, Returned NoWindow)
  | Some h =>
      let url := getURL h s in
      if JS.falsy (Some url) then (s, Returned NoWindow)
      else (log (OpenExternal url) s, Suspended AwaitOpenExternal)
  end.

(** The [.catch] of [openInBrowser]. *)
Definition openInBrowser_settled (r : settlement) (s : state) : state * completion :=
  match r with
  | Resolved _ => (s, Returned Completed)
  | Rejected err =>
      (showErrorBox "Open in Browser Failed" err
         (console_error "Failed to open in browser:" err s),
       Returned Caught)
  end.

(** The texts in which the three export functions differ. *)
Record export_texts := {
  dialogTitle : string;
  defaultPath : string;
  filterName : string;
  extension : string;
  failureLog : string;
  failureTitle : string;
  clickLog : string
}.

Definition texts (k : export_kind) : export_texts :=
  match k with
  | Pdf =>
      {| dialogTitle := "Save Chat as PDF"; defaultPath := "chatgpt-chat.pdf";
         filterName := "PDF"; extension := "pdf";
         failureLog := "Failed to save PDF:";
         failureTitle := "Save Chat as PDF Failed";
         clickLog := "SaveChatAsPdf error:" |}
  | Text =>
      {| dialogTitle := "Save Chat as Text"; defaultPath := "chatgpt-chat.txt";
         filterName := "Text"; extension := "txt";
         failureLog := "Failed to save text:";
         failureTitle := "Save Chat as Text Failed";
         clickLog := "SaveChatAsText error:" |}
  | Screenshot =>
      {| dialogTitle := "Save Screenshot"; defaultPath := "gpt-window.png";
         filterName := "PNG Image"; extension := "png";
         failureLog := "Failed to save screenshot:";
         failureTitle := "Screenshot Failed";
         clickLog := "ScreenshotWindow error:" |}
  end.

(** The [catch] block of an export function. *)
Definition export_catch (k : export_kind) (err : JS.error) (s : state)
    : state * completion :=
  (showErrorBox (failureTitle (texts k)) err
     (console_error (failureLog (texts k)) err s),
   Returned Caught).

(** An export function from its call to its first [await]. *)
Definition export_call (k : export_kind) (s : state) : state * completion :=
  match live_main s with
  | None => (s, Returned NoWindow)
  | Some h =>
      (log (ShowSaveDialog h (dialogTitle (texts k)) (defaultPath (texts k))
              (filterName (texts k)) (extension (texts k))) s,
       Suspended (AwaitSaveDialog k))
  end.

(** [mainWindow.webContents], read without a guard: it throws when
    [mainWindow] is [null] or destroyed by now. *)
Definition mainWindow_webContents (s : state) : JS.error + handle :=
  match mainWindow s with
  | None => inl (null_error "webContents")
  | Some h => if isDestroyed h s then inl destroyed_error else inr h
  end.

(** The call that produces what is written: [printToPDF],
    [executeJavaScript('document.body.innerText', true)], [capturePage]. *)
Definition request_content (k : export_kind) (wc : handle) : effect :=
  match k with
  | Pdf => PrintToPDF wc "A4" true
  | Text => ExecuteJavaScript wc "document.body.innerText" true
  | Screenshot => CapturePage wc
  end.

(** The call [fs.promises.writeFile(filePath, ...)] of each function. *)
Definition write_request (k : export_kind) (filePath data : string) : effect :=
  match k with
  | Pdf => WriteFile filePath data None
  | Text => WriteFile filePath (JS.or_else (Some data) EmptyString) (Some "utf8")
  | Screenshot => WriteFile filePath data None
  end.

(** A suspended call from one [await] to the next: the export functions, and
    the [.catch] of [openInBrowser].  Every [await] of an export function is
    inside its [try] block, so a rejection goes to [export_catch] wherever the
    function waits.  An answer that is not of the kind the [await] expects is
    not delivered ([None]). *)
Definition resume (c : continuation) (r : settlement) (s : state)
    : option (state * completion) :=
  match c, r with
  | AwaitSaveDialog k, Resolved (SaveDialogReturn canceled filePath) =>
      Some
        (if canceled || JS.falsy filePath then (s, Returned CanceledPrompt)
         else
           match mainWindow_webContents s with
           | inl err => export_catch k err s
           | inr wc =>
               (log (request_content k wc) s,
                Suspended (AwaitContent k (JS.or_else filePath EmptyString)))
           end)
  | AwaitContent k filePath, Resolved (Content data) =>
      Some (log (write_request k filePath data) s, Suspended (AwaitWriteFile k))
  | AwaitWriteFile k, Resolved Undefined => Some (s, Returned Completed)
  | AwaitSaveDialog k, Rejected err
  | AwaitContent k _, Rejected err
  | AwaitWriteFile k, Rejected err => Some (export_catch k err s)
  | AwaitOpenExternal, Resolved Undefined
  | AwaitOpenExternal, Rejected _ => Some (openInBrowser_settled r s)
  | _, _ => None
  end.

Definition saveChatAsPdf := export_call Pdf.
Definition saveChatAsText := export_call Text.
Definition screenshotWindow := export_call Screenshot.

(** ** The program: menu, shortcut, lifecycle *)

(** What becomes of the promise of an asynchronous call: a suspended call
    joins the pending ones, a rejection goes to [on_reject]. *)
Definition spawn (on_reject : JS.error -> state -> state) (r : state * completion)
    : state :=
  match r with
  | (s, Suspended c) => set_pending (pending s ++ [Some c]) s
  | (s, Returned _) => s
  | (s, Threw err) => on_reject err s
  end.

Definition uncaught (err : JS.error) (s : state) := log (UncaughtException err) s.

(** The [.catch] a menu closure puts on the promise of an export function. *)
Definition on_reject_of (c : continuation) : JS.error -> state -> state :=
  match c with
  | AwaitSaveDialog k | AwaitContent k _ | AwaitWriteFile k =>
      console_error (clickLog (texts k))
  | AwaitOpenExternal => uncaught
  end.

Definition app_info_detail : string :=
  "A lightweight Electron-based desktop wrapper for ChatGPT." ++ nl ++ nl ++
  "Shortcuts:" ++ nl ++
  "- Cmd+N: New Chat" ++ nl ++
  "- Cmd+R: Reload Chat" ++ nl ++
  "- Cmd+= / Cmd- / Cmd+0: Zoom" ++ nl ++
  "- Ctrl+Cmd+F: Full Screen" ++ nl ++
  "- Cmd+Shift+T: Always On Top" ++ nl ++
  "- Ctrl+Option+G: Global shortcut to focus GPT (Mac)" ++ nl ++
  nl ++ "File menu: Save as PDF, Save as Text, Screenshot, Copy URL, Open in Browser.".

(** The [click] closure of each menu entry. *)
Definition click (c : command) (fault : option JS.error) (s : state) : state :=
  match c with
  | NewChat => newChat s
  | ReloadChat =>
      match live_main s with
      | Some h => reload h s
      | None => s
      end
  | CopyChatUrl => copyChatUrl fault s
  | OpenInBrowser => spawn uncaught (openInBrowser s)
  | SaveChatAsPdf => spawn (console_error (clickLog (texts Pdf))) (saveChatAsPdf s)
  | SaveChatAsText => spawn (console_error (clickLog (texts Text))) (saveChatAsText s)
  | ScreenshotWindow =>
      spawn (console_error (clickLog (texts Screenshot))) (screenshotWindow s)
  | ZoomIn =>
      match live_main s with
      | None => s
      | Some wc =>
          snd (getZoomFactor wc (fun f => setZoomFactor wc (f + 0.1)%float) s)
      end
  | ZoomOut =>
      match live_main s with
      | None => s
      | Some wc =>
          snd (getZoomFactor wc
                 (fun f => setZoomFactor wc (JS.Math_max 0.5 (f - 0.1))%float) s)
      end
  | ResetZoom =>
      match live_main s with
      | None => s
      | Some h => setZoomFactor h 1.0%float s
      end
  | ResetWindowSize => resetWindowSize s
  | ToggleFullScreen =>
      match live_main s with
      | None => s
      | Some h =>
          let isFull := isFullScreen h s in
          setFullScreen h (negb isFull) s
      end
  | AlwaysOnTop =>
      match live_main s with
      | None => s
      | Some h =>
          let currentlyOnTop := isAlwaysOnTop h s in
          setAlwaysOnTop h (negb currentlyOnTop) s
      end
  | NotesWindowItem => createNotesWindow s
  | AppInfo => log (ShowMessageBox "GPT App Info" "GPT Desktop Wrapper" app_info_detail) s
  end.

Definition template (isMac : bool) (appName : string) : list submenu :=
  (if isMac then
     [ {| sub_label := appName;
          entries := [ Role "about"; Separator; Role "services"; Separator;
                       Role "hide"; Role "hideOthers"; Role "unhide"; Separator;
                       Role "quit" ] |} ]
   else [])
  ++ [ {| sub_label := "File";
          entries := [ Item "New Chat" (Some "CmdOrCtrl+N") NewChat;
                       Item "Reload Chat" (Some "CmdOrCtrl+R") ReloadChat;
                       Item "Copy Chat URL" None CopyChatUrl;
                       Item "Open in Browser" None OpenInBrowser;
                       Separator;
                       Item "Save Chat as PDF…" None SaveChatAsPdf;
                       Item "Save Chat as Text…" None SaveChatAsText;
                       Item "Screenshot Window…" None ScreenshotWindow;
                       Separator;
                       if isMac then Role "close" else Role "quit" ] |};
       {| sub_label := "Edit";
          entries := [ Role "undo"; Role "redo"; Separator; Role "cut"; Role "copy";
                       Role "paste"; Role "selectAll" ] |};
       {| sub_label := "View";
          entries := [ Item "Zoom In" (Some "CmdOrCtrl+=") ZoomIn;
                       Item "Zoom Out" (Some "CmdOrCtrl+-") ZoomOut;
                       Item "Reset Zoom" (Some "CmdOrCtrl+0") ResetZoom;
                       Separator;
                       Item "Reset Window Size" None ResetWindowSize;
                       Item "Toggle Full Screen" (Some "Ctrl+Cmd+F") ToggleFullScreen ] |} ]
  ++ (if isMac then
        [ {| sub_label := "Window";
             entries := [ Role "minimize"; Role "zoom"; Separator;
                          Item "Always On Top" (Some "CmdOrCtrl+Shift+T") AlwaysOnTop;
                          Item "Notes Window" None NotesWindowItem;
                          Separator; Role "front" ] |} ]
      else [])
  ++ [ {| sub_label := "Help";
          entries := [ Item "GPT App Info" None AppInfo ] |} ].

Definition with_name (n : string) (a : App) :=
  {| ready := ready a; name := n; applicationMenu := applicationMenu a;
     globalShortcuts := globalShortcuts a; on_activate := on_activate a;
     quitting := quitting a |}.

Definition with_applicationMenu (m : list submenu) (a : App) :=
  {| ready := ready a; name := name a; applicationMenu := m;
     globalShortcuts := globalShortcuts a; on_activate := on_activate a;
     quitting := quitting a |}.

Definition with_globalShortcuts (l : list string) (a : App) :=
  {| ready := ready a; name := name a; applicationMenu := applicationMenu a;
     globalShortcuts := l; on_activate := on_activate a; quitting := quitting a |}.

Definition with_ready (a : App) :=
  {| ready := true; name := name a; applicationMenu := applicationMenu a;
     globalShortcuts := globalShortcuts a; on_activate := on_activate a;
     quitting := quitting a |}.

Definition with_on_activate (a : App) :=
  {| ready := ready a; name := name a; applicationMenu := applicationMenu a;
     globalShortcuts := globalShortcuts a; on_activate := true;
     quitting := quitting a |}.

Definition with_quitting (a : App) :=
  {| ready := ready a; name := name a; applicationMenu := applicationMenu a;
     globalShortcuts := globalShortcuts a; on_activate := on_activate a;
     quitting := true |}.

Definition createAppMenu (s : state) : state :=
  set_app (with_applicationMenu (template (isMac s) (name (app s))) (app s)) s.

(** [registerGlobalShortcuts]; [ok] is what [globalShortcut.register]
    returns. *)
Definition registerGlobalShortcuts (ok : bool) (s : state) : state :=
  let combo := if isMac s then "Control+Option+G" else "Control+Alt+G" in
  let s :=
    if ok then set_app (with_globalShortcuts (globalShortcuts (app s) ++ [combo]) (app s)) s
    else s in
  if negb ok then log (ConsoleError "Failed to register global shortcut" None) s
  else s.

(** The callback of [app.whenReady().then]. *)
Definition whenReady (ok : bool) (s : state) : state :=
  let s := set_app (with_name "GPT" (app s)) s in
  let s := createAppMenu s in
  let s := createMainWindow s in
  let s := registerGlobalShortcuts ok s in
  set_app (with_on_activate (app s)) s.

(** The listener of ['activate']. *)
Definition activate (s : state) : state :=
  if (length (getAllWindows s) =? 0)%nat then createMainWindow s else s.

(** The listener of ['window-all-closed']. *)
Definition window_all_closed (s : state) : state :=
  if negb (String.eqb (platform s) "darwin") then set_app (with_quitting (app s)) s
  else s.

(** The listener of ['will-quit']: [globalShortcut.unregisterAll()]. *)
Definition will_quit (s : state) : state :=
  set_app (with_globalShortcuts [] (app s)) s.

Definition run_listener (l : listener) (s : state) : state :=
  match l with
  | ClearMainWindow => set_mainWindow None s
  | ClearNotesWindow => set_notesWindow None s
  | ShowMainWindow =>
      match mainWindow s with
      | None => s
      | Some h => if isDestroyed h s then uncaught destroyed_error s else show h s
      end
  end.

Definition run_listeners (ls : list listener) (s : state) : state :=
  fold_left (fun s l => run_listener l s) ls s.

(** ** The event loop *)

(** What the process is woken up by: the application becomes ready (with
    the answer [globalShortcut.register] will give), it is activated, a menu
    entry is clicked (with what the clipboard would throw), a global
    shortcut is pressed, a window is ready to show, minimized or closed, a
    pending promise settles, the application is about to quit. *)
Inductive event :=
| Ready (registered : bool)
| Activate
| Click (c : command) (fault : option JS.error)
| Shortcut (accelerator : string)
| ReadyToShow (h : handle)
| Minimize (h : handle)
| Closed (h : handle)
| Settle (task : nat) (r : settlement)
| WillQuit.

(** Window [h] closes: it is destroyed, its ['closed'] listeners run, and
    ['window-all-closed'] follows when it was the last one.  Electron marks
    the window destroyed and emits ['closed'] in one go, so no other piece of
    the program runs in between. *)
Definition close_window (h : handle) (s : state) : state :=
  match windows s !! h with
  | None => s
  | Some w =>
      if destroyed w then s
      else
        let s := update_window h mark_destroyed s in
        let s := if bool_decide (focused s = Some h) then set_focused None s else s in
        let s := run_listeners (on_closed w) s in
        if (length (getAllWindows s) =? 0)%nat then window_all_closed s else s
  end.

Definition ready_to_show (h : handle) (s : state) : state :=
  match windows s !! h with
  | None => s
  | Some w =>
      if destroyed w then s
      else run_listeners (once_ready_to_show w)
             (update_window h (with_once_ready_to_show []) s)
  end.

Definition settle (task : nat) (r : settlement) (s : state) : state :=
  match pending s !! task with
  | Some (Some c) =>
      match resume c r s with
      | Some (s', d) =>
          spawn (on_reject_of c) (set_pending (<[task := None]> (pending s')) s', d)
      | None => s
      end
  | _ => s
  end.

Definition step (s : state) (e : event) : state :=
  match e with
  | Ready ok => if ready (app s) then s else whenReady ok (set_app (with_ready (app s)) s)
  | Activate => if on_activate (app s) then activate s else s
  | Click c fault =>
      if bool_decide (c ∈ menu_commands (applicationMenu (app s))) then click c fault s
      else s
  | Shortcut a =>
      if bool_decide (a ∈ globalShortcuts (app s)) then ensureMainWindow s else s
  | ReadyToShow h => ready_to_show h s
  | Minimize h =>
      if isDestroyed h s then s else update_window h (with_minimized true) s
  | Closed h => close_window h s
  | Settle task r => settle task r s
  | WillQuit => will_quit s
  end.

Definition run (evs : list event) (s : state) : state := fold_left step evs s.

(** ** Notions the properties are stated with *)

#[global] Instance window_kind_eq_dec : EqDecision window_kind.
Proof. solve_decision. Defined.

(** The variable that owns the windows of a kind. *)
Definition slot (k : window_kind) (s : state) : option handle :=
  match k with
  | PrimaryWindow => mainWindow s
  | NotesWindow => notesWindow s
  end.

(** The ['closed'] listener that clears it. *)
Definition clear_slot (k : window_kind) : listener :=
  match k with
  | PrimaryWindow => ClearMainWindow
  | NotesWindow => ClearNotesWindow
  end.

(** The live handles of a kind: the windows built for it and not destroyed. *)
Definition live_windows (k : window_kind) (s : state) : list BrowserWindow :=
  filter (fun w => destroyed w = false /\ kind w = k) (windows s).

(** What the window bookkeeping rests on: for each window its kind, whether
    it is destroyed, and its listeners. *)
Definition outline (w : BrowserWindow)
    : window_kind * bool * list listener * list listener :=
  (kind w, destroyed w, on_closed w, once_ready_to_show w).

Definition skeleton (s : state) :=
  (outline <$> windows s, mainWindow s, notesWindow s, ready (app s)).

(** The invariant of the event loop. *)
Record consistent (s : state) : Prop := {
  open_in_slot :
    forall h w, windows s !! h = Some w -> destroyed w = false ->
                slot (kind w) s = Some h;
  slot_open :
    forall k h, slot k s = Some h ->
                exists w, windows s !! h = Some w /\ destroyed w = false /\ kind w = k;
  closed_clears :
    forall h w, windows s !! h = Some w -> on_closed w = [clear_slot (kind w)];
  ready_shows :
    forall h w, windows s !! h = Some w ->
                Forall (fun l => l = ShowMainWindow) (once_ready_to_show w);
  before_ready :
    ready (app s) = false ->
    windows s = [] /\ applicationMenu (app s) = [] /\ globalShortcuts (app s) = []
    /\ on_activate (app s) = false /\ pending s = []
}.

(** The zoom factor of a window's page. *)
Definition zoom (h : handle) (s : state) : JS.number :=
  match windows s !! h with
  | Some w => zoomFactor (webContents w)
  | None => nan
  end.

(** *** The state machine of an export action *)

Inductive export_state :=
| Idle | PromptingForPath | Canceled | Writing | Success | Failed.

(** The edges as the specification draws them. *)
Definition drawn_edge (a b : export_state) : bool :=
  match a, b with
  | Idle, PromptingForPath
  | PromptingForPath, Canceled | Canceled, Idle
  | PromptingForPath, Writing
  | Writing, Success | Success, Idle
  | Writing, Failed | Failed, Idle => true
  | _, _ => false
  end.

(** The edges the functions have: a prompt can fail too. *)
Definition export_edge (a b : export_state) : bool :=
  drawn_edge a b
  || match a, b with
     | PromptingForPath, Failed => true
     | _, _ => false
     end.

Definition export_state_eqb (a b : export_state) : bool :=
  match a, b with
  | Idle, Idle | PromptingForPath, PromptingForPath | Canceled, Canceled
  | Writing, Writing | Success, Success | Failed, Failed => true
  | _, _ => false
  end.

(** A walk in a machine; staying in a state is not a move. *)
Fixpoint walk (edge : export_state -> export_state -> bool) (p : list export_state)
    : bool :=
  match p with
  | a :: r =>
      match r with
      | b :: _ => (export_state_eqb a b || edge a b) && walk edge r
      | [] => true
      end
  | [] => true
  end.

(** The state of the machine a function is in while it is suspended. *)
Definition waiting_in (c : continuation) : export_state :=
  match c with
  | AwaitSaveDialog _ => PromptingForPath
  | AwaitContent _ _ | AwaitWriteFile _ => Writing
  | AwaitOpenExternal => Idle
  end.

(** The states a function passes when a call or a resumption ends: a
    function that returns is idle again. *)
Definition passed (d : completion) : list export_state :=
  match d with
  | Suspended c => [waiting_in c]
  | Returned NoWindow => [Idle]
  | Returned CanceledPrompt => [Canceled; Idle]
  | Returned Completed => [Success; Idle]
  | Returned Caught => [Failed; Idle]
  | Threw _ => []
  end.

(** The effects between two states of the log. *)
Definition emitted (s s' : state) : list effect :=
  drop (length (effects s)) (effects s').

Definition is_write (e : effect) : bool :=
  match e with
  | WriteFile _ _ _ => true
  | _ => false
  end.

Definition is_dialog (e : effect) : bool :=
  match e with
  | ShowSaveDialog _ _ _ _ _ | ShowErrorBox _ _ | ShowMessageBox _ _ _ => true
  | _ => false
  end.

(** What one invocation did: the state it ends in, how each of its pieces
    ended, and the effects of its own. *)
Record report := {
  final : state;
  pieces : list completion;
  own : list effect
}.

(** A suspended function driven by the outside: before each answer the event
    loop handles other events.  An answer of the wrong kind for the [await]
    that waits is not delivered, and the function stays suspended. *)
Fixpoint drive (schedule : list (list event * settlement)) (s : state) (d : completion)
    : report :=
  match d, schedule with
  | Suspended c, (meanwhile, answer) :: rest =>
      let s1 := run meanwhile s in
      match resume c answer s1 with
      | Some (s2, d2) =>
          let r := drive rest s2 d2 in
          {| final := final r; pieces := d2 :: pieces r;
             own := emitted s1 s2 ++ own r |}
      | None => {| final := s1; pieces := []; own := [] |}
      end
  | _, _ => {| final := s; pieces := []; own := [] |}
  end.

(** One invocation of an export action. *)
Definition invoke (k : export_kind) (schedule : list (list event * settlement))
    (s : state) : report :=
  let (s1, d1) := export_call k s in
  let r := drive schedule s1 d1 in
  {| final := final r; pieces := d1 :: pieces r; own := emitted s s1 ++ own r |}.

(** The states of the machine an invocation goes through. *)
Definition states_of (r : report) : list export_state :=
  Idle :: flat_map passed (pieces r).

(** A window built by [createMainWindow], once its page is requested and its
    listeners are attached. *)
Definition fresh_main : BrowserWindow :=
  {| kind := PrimaryWindow; options := mainWindowOptions; size := (900, 700)%Z;
     centered := true; visible := false; minimized := false; fullScreen := false;
     alwaysOnTop := false; destroyed := false;
     webContents := {| URL := canonical_address; zoomFactor := 1%float; reloads := 0 |};
     on_closed := [ClearMainWindow]; once_ready_to_show := [ShowMainWindow] |}.

Definition fresh_notes : BrowserWindow :=
  {| kind := NotesWindow; options := notesWindowOptions; size := (400, 500)%Z;
     centered := true; visible := true; minimized := false; fullScreen := false;
     alwaysOnTop := false; destroyed := false;
     webContents := {| URL := notes_address; zoomFactor := 1%float; reloads := 0 |};
     on_closed := [ClearNotesWindow]; once_ready_to_show := [] |}.

Definition set_slot (k : window_kind) (v : option handle) (s : state) : state :=
  match k with
  | PrimaryWindow => set_mainWindow v s
  | NotesWindow => set_notesWindow v s
  end.

(** The window a slot refers to when it is open. *)
Definition live_slot (k : window_kind) (s : state) : option handle :=
  match slot k s with
  | None => None
  | Some h => if isDestroyed h s then None else Some h
  end.

Definition isVisible (h : handle) (s : state) : bool :=
  match windows s !! h with
  | Some w => visible w
  | None => false
  end.

(** The command actions the specification lists as needing the primary
    window, and [Reload Chat], which has the same guard. *)
Definition primary_commands : list command :=
  [ CopyChatUrl; OpenInBrowser; SaveChatAsPdf; SaveChatAsText; ScreenshotWindow;
    ResetWindowSize; ZoomIn; ZoomOut; ResetZoom; ToggleFullScreen; AlwaysOnTop;
    ReloadChat ].

(** *** What an invocation of an export action can look like *)

(** The prompt of an export function, and what its [catch] block emits. *)
Definition prompt (k : export_kind) (h : handle) : effect :=
  ShowSaveDialog h (dialogTitle (texts k)) (defaultPath (texts k))
    (filterName (texts k)) (extension (texts k)).

Definition failure_report (k : export_kind) (err : JS.error) : list effect :=
  [ ConsoleError (failureLog (texts k)) (Some err);
    ShowErrorBox (failureTitle (texts k)) (JS.message_or_self err) ].

(** The number of calls of [writeFile] among some effects. *)
Definition writes (es : list effect) : nat := length (List.filter is_write es).

Definition is_error_box (e : effect) : bool :=
  match e with
  | ShowErrorBox _ _ => true
  | _ => false
  end.

(** The runs of an export function: how its pieces end, and the effects of
    each run, in order.  A run is cut short where the outside has not
    answered yet. *)
Inductive run_shape (k : export_kind) : list completion -> list effect -> Prop :=
| shape_no_window :
    run_shape k [Returned NoWindow] []
| shape_prompting h :
    run_shape k [Suspended (AwaitSaveDialog k)] [prompt k h]
| shape_canceled h :
    run_shape k [Suspended (AwaitSaveDialog k); Returned CanceledPrompt] [prompt k h]
| shape_prompt_failed h err :
    run_shape k [Suspended (AwaitSaveDialog k); Returned Caught]
      (prompt k h :: failure_report k err)
| shape_producing h wc path :
    run_shape k [Suspended (AwaitSaveDialog k); Suspended (AwaitContent k path)]
      [prompt k h; request_content k wc]
| shape_content_failed h wc path err :
    run_shape k
      [Suspended (AwaitSaveDialog k); Suspended (AwaitContent k path); Returned Caught]
      (prompt k h :: request_content k wc :: failure_report k err)
| shape_writing h wc path data :
    run_shape k
      [Suspended (AwaitSaveDialog k); Suspended (AwaitContent k path);
       Suspended (AwaitWriteFile k)]
      [prompt k h; request_content k wc; write_request k path data]
| shape_write_failed h wc path data err :
    run_shape k
      [Suspended (AwaitSaveDialog k); Suspended (AwaitContent k path);
       Suspended (AwaitWriteFile k); Returned Caught]
      (prompt k h :: request_content k wc :: write_request k path data
         :: failure_report k err)
| shape_success h wc path data :
    run_shape k
      [Suspended (AwaitSaveDialog k); Suspended (AwaitContent k path);
       Suspended (AwaitWriteFile k); Returned Completed]
      [prompt k h; request_content k wc; write_request k path data].

(** A piece of an asynchronous function touches nothing but the effect
    log. *)
Record frame (s s' : state) : Prop := {
  frame_windows : windows s' = windows s;
  frame_mainWindow : mainWindow s' = mainWindow s;
  frame_notesWindow : notesWindow s' = notesWindow s;
  frame_focused : focused s' = focused s;
  frame_app : app s' = app s;
  frame_pending : pending s' = pending s;
  frame_effects : effects s' = (effects s ++ emitted s s')%list
}.

(** A failure some facility reports. *)
Definition disk_full : JS.error :=
  {| JS.message := Some "ENOSPC: no space left on device, write";
     JS.toString := "Error: ENOSPC: no space left on device, write" |}.

Definition render_failed : JS.error :=
  {| JS.message := Some "Printing failed"; JS.toString := "Error: Printing failed" |}.

(** Answers of the outside to one invocation: a path is chosen and every
    step succeeds; and a path is chosen after the primary window has been
    closed behind the prompt. *)
Definition all_goes_well : list (list event * settlement) :=
  [ ([], Resolved (SaveDialogReturn false (Some "/tmp/chat.txt")));
    ([], Resolved (Content "Hello"));
    ([], Resolved Undefined) ].

Definition window_closed_meanwhile : list (list event * settlement) :=
  [ ([Closed 0], Resolved (SaveDialogReturn false (Some "/tmp/chat.txt"))) ].

(** *** Notions for the further properties *)

(** What the process has wired up, apart from the request to quit. *)
Definition registry (s : state) :=
  (platform s, ready (app s), name (app s), applicationMenu (app s),
   globalShortcuts (app s), on_activate (app s)).

(** The menu entry of each export action. *)
Definition command_of (k : export_kind) : command :=
  match k with
  | Pdf => SaveChatAsPdf
  | Text => SaveChatAsText
  | Screenshot => ScreenshotWindow
  end.

(** The accelerator [registerGlobalShortcuts] asks for. *)
Definition combo (p : string) : string :=
  if String.eqb p "darwin" then "Control+Option+G" else "Control+Alt+G".

Definition is_Ready (e : event) : bool :=
  match e with
  | Ready _ => true
  | _ => false
  end.

(** The kinds of the windows built so far. *)
Definition kinds (s : state) : list window_kind := kind <$> windows s.

(** What holds of the process where the Window menu is not offered: there
    is no notes window, and the menu has no entry that builds one. *)
Definition primary_only (s : state) : Prop :=
  String.eqb (platform s) "darwin" = false
  /\ bool_decide (NotesWindowItem ∈ menu_commands (applicationMenu (app s))) = false
  /\ bool_decide (AlwaysOnTop ∈ menu_commands (applicationMenu (app s))) = false
  /\ Forall (fun k => k = PrimaryWindow) (kinds s)
  /\ notesWindow s = None.

(** *** What an event can do to a window *)

(** The ways the program changes a window in the course of one event: each
    of them is a method called on an open window, or the window closing. *)
Inductive touch : BrowserWindow -> BrowserWindow -> Prop :=
| touch_none w : touch w w
| touch_then w1 w2 w3 : touch w1 w2 -> touch w2 w3 -> touch w1 w3
| touch_show w : destroyed w = false -> touch w (with_visible true w)
| touch_ready w :
    destroyed w = false ->
    touch w (with_visible true (with_once_ready_to_show [] w))
| touch_minimized w b : destroyed w = false -> touch w (with_minimized b w)
| touch_fullScreen w b : destroyed w = false -> touch w (with_fullScreen b w)
| touch_alwaysOnTop w b : destroyed w = false -> touch w (with_alwaysOnTop b w)
| touch_geometry w sz c : destroyed w = false -> touch w (with_geometry sz c w)
| touch_URL w u : destroyed w = false -> touch w (with_webContents (set_URL u) w)
| touch_reload w : destroyed w = false -> touch w (with_webContents count_reload w)
| touch_zoom_reset w :
    destroyed w = false -> touch w (with_webContents (set_zoomFactor 1.0%float) w)
| touch_closed w : destroyed w = false -> touch w (mark_destroyed w).

(** The window table after an event: the windows there were, each touched
    or not, and at most one window more, as it is built. *)
Definition evolved (l l' : list BrowserWindow) : Prop :=
  exists l1 extra,
    l' = (l1 ++ extra)%list /\ Forall2 touch l l1
    /\ (extra = [] \/ extra = [fresh_main] \/ extra = [fresh_notes]).

(** An open window is on the screen, or it is a primary window that still
    waits for its ['ready-to-show']. *)
Definition shown_or_waiting (w : BrowserWindow) : Prop :=
  destroyed w = false ->
  (once_ready_to_show w = [] /\ visible w = true)
  \/ (once_ready_to_show w = [ShowMainWindow] /\ kind w = PrimaryWindow).

(** * Properties *)

(** ** The window table *)

Local Open Scope list_scope.

Lemma outline_alter f h (l : list BrowserWindow) :
  (forall w, outline (f w) = outline w) ->
  outline <$> alter f h l = outline <$> l.
Proof.
  intros Hf. revert h; induction l as [|w l IH]; intros [|h]; try reflexivity.
  - cbn. f_equal. apply Hf.
  - cbn. f_equal. apply IH.
Qed.

Lemma skeleton_update_window h f s :
  (forall w, outline (f w) = outline w) ->
  skeleton (update_window h f s) = skeleton s.
Proof.
  intros Hf. unfold skeleton, update_window; simpl. now rewrite outline_alter.
Qed.

Lemma alter_fresh {A} (f : A -> A) (l : list A) (x : A) :
  alter f (length l) (l ++ [x]) = l ++ [f x].
Proof.
  induction l as [|y l IH]; cbn; [reflexivity|]. f_equal. apply IH.
Qed.

Lemma createMainWindow_eq s :
  createMainWindow s =
  set_windows (windows s ++ [fresh_main]) (set_mainWindow (Some (length (windows s))) s).
Proof.
  unfold createMainWindow, new_BrowserWindow, on_closed_add, once_ready_to_show_add,
    loadURL, update_window; simpl.
  rewrite !alter_fresh. reflexivity.
Qed.

Lemma createNotesWindow_eq s :
  live_notes s = None ->
  createNotesWindow s =
  set_windows (windows s ++ [fresh_notes]) (set_notesWindow (Some (length (windows s))) s).
Proof.
  intros H. unfold createNotesWindow. rewrite H.
  unfold new_BrowserWindow, on_closed_add, loadURL, update_window; simpl.
  rewrite !alter_fresh. reflexivity.
Qed.

(** ** The invariant of the event loop *)

Lemma outline_lookup (l l' : list BrowserWindow) h w :
  outline <$> l = outline <$> l' -> l !! h = Some w ->
  exists w', l' !! h = Some w' /\ outline w' = outline w.
Proof.
  intros E H. apply (f_equal (fun x => x !! h)) in E.
  rewrite !list_lookup_fmap, H in E. simpl in E.
  destruct (l' !! h) as [w'|]; simpl in E; [|discriminate].
  exists w'. split; [reflexivity|]. congruence.
Qed.

Lemma consistent_boot p : consistent (boot p).
Proof.
  split; simpl.
  - intros h w H; discriminate.
  - intros [] h H; discriminate.
  - intros h w H; discriminate.
  - intros h w H; discriminate.
  - auto.
Qed.

(** The invariant reads the skeleton only, once the application is ready. *)
Lemma consistent_skeleton s s' :
  skeleton s' = skeleton s -> ready (app s) = true -> consistent s -> consistent s'.
Proof.
  unfold skeleton. intros E Hr [I1 I2 I3 I4 _].
  injection E as Ew Em En Er.
  assert (Es : forall k, slot k s' = slot k s) by (intros []; assumption).
  split.
  - intros h w' H Hd.
    destruct (outline_lookup _ _ h w' Ew H) as (w & Hw & Ho).
    unfold outline in Ho. injection Ho as Hk Hdd Hl Ho.
    rewrite Es, <- Hk. apply I1; [exact Hw | now rewrite Hdd].
  - intros k h H. rewrite Es in H.
    destruct (I2 k h H) as (w & Hw & Hd & Hk).
    destruct (outline_lookup _ _ h w (eq_sym Ew) Hw) as (w' & Hw' & Ho).
    unfold outline in Ho. injection Ho as Hk' Hd' Hl' Ho'.
    exists w'. split; [exact Hw'|]. split; [now rewrite Hd'|now rewrite Hk'].
  - intros h w' H.
    destruct (outline_lookup _ _ h w' Ew H) as (w & Hw & Ho).
    unfold outline in Ho. injection Ho as Hk Hdd Hl Ho.
    rewrite <- Hk, <- Hl. apply (I3 h w Hw).
  - intros h w' H.
    destruct (outline_lookup _ _ h w' Ew H) as (w & Hw & Ho).
    unfold outline in Ho. injection Ho as Hk Hdd Hl Ho.
    rewrite <- Ho. apply (I4 h w Hw).
  - congruence.
Qed.

Lemma slot_set_slot k k' v s :
  slot k' (set_slot k v s) = if decide (k' = k) then v else slot k' s.
Proof. destruct k, k'; reflexivity. Qed.

(** A new window of a kind that has no open window takes the slot. *)
Lemma consistent_install k w0 s :
  consistent s -> ready (app s) = true ->
  (forall h w, windows s !! h = Some w -> kind w = k -> destroyed w = true) ->
  kind w0 = k -> destroyed w0 = false -> on_closed w0 = [clear_slot k] ->
  Forall (fun l => l = ShowMainWindow) (once_ready_to_show w0) ->
  consistent (set_windows (windows s ++ [w0]) (set_slot k (Some (length (windows s))) s)).
Proof.
  intros [I1 I2 I3 I4 _] Hr Hnone Hk0 Hd0 Hl0 Ho0.
  assert (Ew : forall s0, windows (set_windows (windows s ++ [w0]) s0) = windows s ++ [w0])
    by reflexivity.
  assert (Es : forall k', slot k' (set_windows (windows s ++ [w0])
                                      (set_slot k (Some (length (windows s))) s))
                          = if decide (k' = k) then Some (length (windows s)) else slot k' s).
  { intros k'. rewrite <- slot_set_slot. destruct k, k'; reflexivity. }
  split.
  - intros h w. rewrite Ew, Es. intros H Hd.
    apply lookup_snoc_Some in H as [[_ H]|[-> <-]].
    + destruct (decide (kind w = k)) as [E|_].
      * rewrite (Hnone h w H E) in Hd. discriminate.
      * apply I1; assumption.
    + rewrite decide_True by assumption. reflexivity.
  - intros k' h. rewrite Ew, Es. intros H.
    destruct (decide (k' = k)) as [->|_].
    + injection H as <-. exists w0. rewrite list_lookup_middle by reflexivity.
      repeat split; assumption.
    + destruct (I2 k' h H) as (w & Hw & Hd & Hkw). exists w.
      rewrite lookup_app_l by (eapply lookup_lt_Some; eassumption). auto.
  - intros h w. rewrite Ew. intros H.
    apply lookup_snoc_Some in H as [[_ H]|[-> <-]].
    + apply (I3 h w H).
    + congruence.
  - intros h w. rewrite Ew. intros H.
    apply lookup_snoc_Some in H as [[_ H]|[-> <-]].
    + apply (I4 h w H).
    + assumption.
  - destruct k; simpl; congruence.
Qed.

Lemma lookup_alter_inv {A} (f : A -> A) h (l : list A) j x' :
  alter f h l !! j = Some x' ->
  exists x, l !! j = Some x /\ ((j = h /\ x' = f x) \/ (j <> h /\ x' = x)).
Proof.
  rewrite list_lookup_alter. destruct (decide (h = j)) as [->|Hne].
  - destruct (l !! j) as [x|]; simpl; intros H; [|discriminate].
    injection H as <-. exists x. auto.
  - intros H. exists x'. split; [assumption|]. right. split; congruence.
Qed.

Lemma lookup_alter_fwd {A} (f : A -> A) h (l : list A) j x :
  l !! j = Some x ->
  alter f h l !! j = Some (if decide (h = j) then f x else x).
Proof.
  intros H. rewrite list_lookup_alter. destruct (decide (h = j)) as [->|_].
  - rewrite H. reflexivity.
  - exact H.
Qed.

(** Forgetting the ['ready-to-show'] listeners of a window keeps the
    invariant. *)
Lemma consistent_forget_ready h s :
  ready (app s) = true -> consistent s ->
  consistent (update_window h (with_once_ready_to_show []) s).
Proof.
  intros Hr [I1 I2 I3 I4 _]. split.
  - intros j w' H Hd. simpl in H.
    apply lookup_alter_inv in H as (w & Hw & [[-> ->]|[_ ->]]);
      apply (I1 _ w Hw Hd).
  - intros k j H.
    assert (H' : slot k s = Some j) by (destruct k; exact H).
    destruct (I2 k j H') as (w & Hw & Hd & Hk).
    eexists. split; [simpl; apply lookup_alter_fwd, Hw|].
    split; case_decide; first [exact Hd | exact Hk].
  - intros j w' H. simpl in H.
    apply lookup_alter_inv in H as (w & Hw & [[-> ->]|[_ ->]]); apply (I3 _ _ Hw).
  - intros j w' H. simpl in H.
    apply lookup_alter_inv in H as (w & Hw & [[-> ->]|[_ ->]]).
    + constructor.
    + apply (I4 _ _ Hw).
  - simpl. congruence.
Qed.

(** A window that closes leaves its slot empty. *)
Lemma consistent_vacate h w s :
  consistent s -> windows s !! h = Some w -> destroyed w = false ->
  consistent (set_slot (kind w) None (update_window h mark_destroyed s)).
Proof.
  intros [I1 I2 I3 I4 I5] Hw Hd.
  assert (Ew : windows (set_slot (kind w) None (update_window h mark_destroyed s))
               = alter mark_destroyed h (windows s)) by (destruct (kind w); reflexivity).
  assert (Es : forall k, slot k (set_slot (kind w) None (update_window h mark_destroyed s))
                         = if decide (k = kind w) then None else slot k s).
  { intros k. rewrite slot_set_slot. destruct (decide (k = kind w)); [reflexivity|].
    destruct k; reflexivity. }
  split.
  - intros j w'. rewrite Ew, Es. intros H Hd'.
    apply lookup_alter_inv in H as (w1 & Hw1 & [[-> ->]|[Hne ->]]); [discriminate|].
    destruct (decide (kind w1 = kind w)) as [E|_]; [|apply I1; assumption].
    exfalso. apply Hne.
    pose proof (I1 _ _ Hw1 Hd') as H1. pose proof (I1 _ _ Hw Hd) as H2.
    rewrite E in H1. congruence.
  - intros k j. rewrite Ew, Es. intros H.
    destruct (decide (k = kind w)) as [|Hk]; [discriminate|].
    destruct (I2 k j H) as (w1 & Hw1 & Hd1 & Hk1).
    exists w1. split; [|auto].
    rewrite list_lookup_alter_ne; [assumption|].
    intros ->. apply Hk. congruence.
  - intros j w'. rewrite Ew. intros H.
    apply lookup_alter_inv in H as (w1 & Hw1 & [[-> ->]|[_ ->]]); apply (I3 _ _ Hw1).
  - intros j w'. rewrite Ew. intros H.
    apply lookup_alter_inv in H as (w1 & Hw1 & [[-> ->]|[_ ->]]); apply (I4 _ _ Hw1).
  - intros Hr. exfalso.
    assert (Hr' : ready (app s) = false) by (destruct (kind w); exact Hr).
    destruct (I5 Hr') as (E & _). rewrite E in Hw. discriminate.
Qed.

(** The steps that leave the skeleton alone. *)
Ltac same_skeleton :=
  unfold skeleton; simpl;
  rewrite ?outline_alter by (intros; reflexivity);
  reflexivity.

Lemma skeleton_run_show s :
  skeleton (run_listener ShowMainWindow s) = skeleton s.
Proof.
  unfold run_listener. destruct (mainWindow s) as [h|]; [|reflexivity].
  destruct (isDestroyed h s); same_skeleton.
Qed.

Lemma skeleton_run_shows ls s :
  Forall (fun l => l = ShowMainWindow) ls ->
  skeleton (run_listeners ls s) = skeleton s.
Proof.
  intros H. revert s. induction H as [|l ls -> _ IH]; intros s; [reflexivity|].
  unfold run_listeners in *. simpl. rewrite IH. apply skeleton_run_show.
Qed.

Lemma skeleton_resume c r s s' d :
  resume c r s = Some (s', d) -> skeleton s' = skeleton s.
Proof.
  unfold resume, export_catch, openInBrowser_settled. intros H.
  destruct c, r as [[]|]; try discriminate H;
    repeat match type of H with
           | context [if ?b then _ else _] => destruct b
           | context [match ?x with inl _ => _ | inr _ => _ end] => destruct x
           end;
    injection H as <- <-; reflexivity.
Qed.

Lemma skeleton_spawn f s d :
  (forall err s0, skeleton (f err s0) = skeleton s0) ->
  skeleton (spawn f (s, d)) = skeleton s.
Proof. intros Hf. destruct d; simpl; auto. Qed.

Lemma skeleton_on_reject c err s : skeleton (on_reject_of c err s) = skeleton s.
Proof. destruct c; reflexivity. Qed.

Lemma skeleton_settle task r s : skeleton (settle task r s) = skeleton s.
Proof.
  unfold settle. destruct (pending s !! task) as [[c|]|]; try reflexivity.
  destruct (resume c r s) as [[s' d]|] eqn:E; [|reflexivity].
  rewrite skeleton_spawn by apply skeleton_on_reject.
  apply skeleton_resume in E. rewrite <- E. reflexivity.
Qed.

Lemma live_slot_None k s :
  consistent s -> live_slot k s = None ->
  forall h w, windows s !! h = Some w -> kind w = k -> destroyed w = true.
Proof.
  intros [I1 _ _ _ _] Hn h w Hw Hk.
  destruct (destroyed w) eqn:Hd; [reflexivity|]. exfalso.
  pose proof (I1 h w Hw Hd) as H. rewrite Hk in H.
  unfold live_slot, isDestroyed in Hn. rewrite H in Hn. simpl in Hn.
  rewrite Hw, Hd in Hn. discriminate.
Qed.

Lemma consistent_createMainWindow s :
  consistent s -> ready (app s) = true -> live_main s = None ->
  consistent (createMainWindow s).
Proof.
  intros I Hr Hn. rewrite createMainWindow_eq.
  apply (consistent_install PrimaryWindow fresh_main s I Hr); try reflexivity.
  - apply (live_slot_None PrimaryWindow s I Hn).
  - repeat constructor.
Qed.

Lemma consistent_createNotesWindow s :
  consistent s -> ready (app s) = true -> consistent (createNotesWindow s).
Proof.
  intros I Hr. destruct (live_notes s) as [h|] eqn:Hn.
  - unfold createNotesWindow. rewrite Hn.
    apply (consistent_skeleton s); [same_skeleton|assumption..].
  - rewrite (createNotesWindow_eq s Hn).
    apply (consistent_install NotesWindow fresh_notes s I Hr); try reflexivity.
    + apply (live_slot_None NotesWindow s I Hn).
    + constructor.
Qed.

Lemma skeleton_ensure_live s h :
  live_main s = Some h -> skeleton (ensureMainWindow s) = skeleton s.
Proof.
  intros H. unfold ensureMainWindow. rewrite H.
  destruct (isMinimized h s); same_skeleton.
Qed.

Lemma consistent_ensureMainWindow s :
  consistent s -> ready (app s) = true -> consistent (ensureMainWindow s).
Proof.
  intros I Hr. destruct (live_main s) as [h|] eqn:Hn.
  - apply (consistent_skeleton s); [apply (skeleton_ensure_live s h Hn)|assumption..].
  - unfold ensureMainWindow. rewrite Hn. now apply consistent_createMainWindow.
Qed.

Lemma consistent_newChat s :
  consistent s -> ready (app s) = true -> consistent (newChat s).
Proof.
  intros I Hr. unfold newChat. destruct (live_main s) as [h|] eqn:Hn.
  - apply (consistent_skeleton s); [same_skeleton|assumption..].
  - now apply consistent_createMainWindow.
Qed.

(** A click that opens no window leaves the skeleton alone. *)
Lemma skeleton_click c fault s :
  c <> NewChat -> c <> NotesWindowItem ->
  skeleton (click c fault s) = skeleton s.
Proof.
  intros H1 H2.
  destruct c; try contradiction; unfold click, copyChatUrl, openInBrowser,
    saveChatAsPdf, saveChatAsText, screenshotWindow, export_call, resetWindowSize,
    getZoomFactor, spawn;
    try (destruct (live_main s) as [h|]; [|reflexivity]);
    try (destruct (JS.falsy _); [reflexivity|]);
    try (destruct (windows s !! h); [|reflexivity]);
    try destruct fault; same_skeleton.
Qed.

Lemma consistent_click c fault s :
  consistent s -> ready (app s) = true -> consistent (click c fault s).
Proof.
  intros I Hr.
  destruct (decide (c = NewChat)) as [->|H1]; [now apply consistent_newChat|].
  destruct (decide (c = NotesWindowItem)) as [->|H2];
    [now apply consistent_createNotesWindow|].
  apply (consistent_skeleton s); [now apply skeleton_click|assumption..].
Qed.

Lemma run_listeners_clear k s :
  skeleton (run_listeners [clear_slot k] s) = skeleton (set_slot k None s).
Proof. destruct k; reflexivity. Qed.

Lemma skeleton_window_all_closed s : skeleton (window_all_closed s) = skeleton s.
Proof. unfold window_all_closed. destruct (negb _); reflexivity. Qed.

Lemma skeleton_set_slot k v s s' :
  skeleton s' = skeleton s -> skeleton (set_slot k v s') = skeleton (set_slot k v s).
Proof.
  unfold skeleton. intros E. injection E as Ew Em En Er.
  destruct k; simpl; congruence.
Qed.

(** Closing an open window destroys it and clears the slot of its kind;
    nothing else of the skeleton moves. *)
Lemma skeleton_close_window h w s :
  consistent s -> windows s !! h = Some w -> destroyed w = false ->
  skeleton (close_window h s)
  = skeleton (set_slot (kind w) None (update_window h mark_destroyed s)).
Proof.
  intros I Hw Hd. unfold close_window. rewrite Hw, Hd.
  rewrite (closed_clears s I h w Hw).
  set (s1 := update_window h mark_destroyed s) in *.
  set (s2 := if bool_decide (focused s1 = Some h) then set_focused None s1 else s1).
  assert (E2 : skeleton s2 = skeleton s1)
    by (unfold s2; destruct (bool_decide _); reflexivity).
  transitivity (skeleton (run_listeners [clear_slot (kind w)] s2)).
  - destruct (_ =? 0)%nat; [apply skeleton_window_all_closed|reflexivity].
  - rewrite run_listeners_clear. apply skeleton_set_slot, E2.
Qed.

Lemma consistent_close_window h s : consistent s -> consistent (close_window h s).
Proof.
  intros I.
  destruct (windows s !! h) as [w|] eqn:Hw;
    [|unfold close_window; rewrite Hw; assumption].
  destruct (destroyed w) eqn:Hd;
    [unfold close_window; rewrite Hw, Hd; assumption|].
  pose proof (consistent_vacate h w s I Hw Hd) as I'.
  assert (Hr : ready (app s) = true).
  { destruct (ready (app s)) eqn:E; [reflexivity|].
    destruct (before_ready s I E) as (E' & _). rewrite E' in Hw. discriminate. }
  apply (consistent_skeleton _ _) with (3 := I');
    [now apply skeleton_close_window|destruct (kind w); exact Hr].
Qed.

Lemma consistent_ready_to_show h s :
  consistent s -> ready (app s) = true -> consistent (ready_to_show h s).
Proof.
  intros I Hr. unfold ready_to_show.
  destruct (windows s !! h) as [w|] eqn:Hw; [|assumption].
  destruct (destroyed w); [assumption|].
  apply (consistent_skeleton (update_window h (with_once_ready_to_show []) s)).
  - apply skeleton_run_shows, (ready_shows s I h w Hw).
  - exact Hr.
  - now apply consistent_forget_ready.
Qed.

Lemma consistent_activate s :
  consistent s -> ready (app s) = true -> consistent (activate s).
Proof.
  intros I Hr. unfold activate.
  destruct (length (getAllWindows s) =? 0)%nat eqn:E; [|assumption].
  apply Nat.eqb_eq, nil_length_inv in E.
  apply consistent_createMainWindow; try assumption.
  unfold live_main. destruct (mainWindow s) as [h|] eqn:Hm; [|reflexivity].
  destruct (slot_open s I PrimaryWindow h Hm) as (w & Hw & Hd & _).
  exfalso. eapply (filter_nil_not_elem_of _ _ w E); [exact Hd|].
  eapply list_elem_of_lookup_2, Hw.
Qed.

(** Before the application is ready nothing is set up, and the slots are
    empty. *)
Lemma consistent_whenReady ok s :
  consistent s -> ready (app s) = false ->
  consistent (whenReady ok (set_app (with_ready (app s)) s)).
Proof.
  intros I Hr. destruct (before_ready s I Hr) as (Ew & _).
  assert (I0 : consistent (set_app (with_ready (app s)) s)).
  { destruct I as [I1 I2 I3 I4 _]. split; try assumption.
    intros H. simpl in H. discriminate H. }
  unfold whenReady.
  set (s1 := createAppMenu _).
  assert (I1 : consistent s1) by (apply (consistent_skeleton _ _) with (3 := I0); reflexivity).
  assert (I2 : consistent (createMainWindow s1)).
  { apply consistent_createMainWindow; [assumption|reflexivity|].
    unfold live_main. destruct (mainWindow s1) as [h|] eqn:Hm; [|reflexivity].
    destruct (slot_open s1 I1 PrimaryWindow h Hm) as (w & Hw & _).
    change (windows s1) with (windows s) in Hw. rewrite Ew in Hw. discriminate. }
  apply (consistent_skeleton _ _) with (3 := I2).
  - unfold registerGlobalShortcuts. destruct ok; reflexivity.
  - rewrite createMainWindow_eq. reflexivity.
Qed.

(** Every event keeps the invariant. *)
Lemma step_consistent s e : consistent s -> consistent (step s e).
Proof.
  intros I. destruct (ready (app s)) eqn:Hr.
  - destruct e; simpl; rewrite ?Hr; try assumption.
    + destruct (on_activate (app s)); [now apply consistent_activate|assumption].
    + destruct (bool_decide _); [now apply consistent_click|assumption].
    + destruct (bool_decide _); [now apply consistent_ensureMainWindow|assumption].
    + now apply consistent_ready_to_show.
    + destruct (isDestroyed h s); [assumption|].
      apply (consistent_skeleton s); [same_skeleton|assumption..].
    + now apply consistent_close_window.
    + apply (consistent_skeleton s); [apply skeleton_settle|assumption..].
    + apply (consistent_skeleton s); [reflexivity|assumption..].
  - destruct (before_ready s I Hr) as (Ew & Em & Eg & Ea & Ep).
    destruct e; simpl; rewrite ?Hr, ?Ea, ?Em, ?Eg; try assumption.
    + now apply consistent_whenReady.
    + unfold ready_to_show. rewrite Ew. assumption.
    + unfold isDestroyed. rewrite Ew. assumption.
    + unfold close_window. rewrite Ew. assumption.
    + unfold settle. rewrite Ep. assumption.
    + destruct I as [I1 I2 I3 I4 _]. split; try assumption.
      simpl. auto.
Qed.

Lemma run_consistent evs s : consistent s -> consistent (run evs s).
Proof.
  revert s. induction evs as [|e evs IH]; intros s I; [assumption|].
  apply IH, step_consistent, I.
Qed.

(** Every state the process reaches is consistent. *)
Lemma reachable_consistent p evs : consistent (run evs (boot p)).
Proof. apply run_consistent, consistent_boot. Qed.

(** ** Counting live handles *)

Lemma live_windows_at_most_one k s :
  consistent s -> length (live_windows k s) <= 1.
Proof.
  intros [I1 _ _ _ _]. unfold live_windows.
  assert (H : forall i j x y, windows s !! i = Some x -> windows s !! j = Some y ->
              (destroyed x = false /\ kind x = k) ->
              (destroyed y = false /\ kind y = k) -> i = j).
  { intros i j x y Hx Hy [Hdx Hkx] [Hdy Hky].
    pose proof (I1 i x Hx Hdx) as E1. pose proof (I1 j y Hy Hdy) as E2.
    rewrite Hkx in E1. rewrite Hky in E2. congruence. }
  revert H. generalize (windows s). clear.
  induction l as [|x l IH]; intros H; [simpl; lia|].
  rewrite filter_cons. destruct (decide _) as [Hx|Hx].
  - destruct (filter _ l) as [|y r] eqn:E; [simpl; lia|]. exfalso.
    assert (Hy : y ∈ filter (fun w => destroyed w = false /\ kind w = k) l)
      by (rewrite E; left).
    apply list_elem_of_filter in Hy as [Py Hy].
    apply list_elem_of_lookup_1 in Hy as [j Hj].
    specialize (H 0 (S j) x y eq_refl Hj Hx Py). discriminate.
  - apply IH. intros i j a b Ha Hb Pa Pb.
    assert (E : S i = S j) by (apply (H (S i) (S j) a b); assumption).
    lia.
Qed.


Lemma live_windows_none k s :
  consistent s -> live_slot k s = None -> live_windows k s = [].
Proof.
  intros I H. pose proof (live_slot_None k s I H) as Hn.
  destruct (live_windows k s) as [|w r] eqn:E; [reflexivity|]. exfalso.
  assert (Hin : w ∈ live_windows k s) by (rewrite E; left).
  apply list_elem_of_filter in Hin as [[Hd Hk] Hin].
  apply list_elem_of_lookup_1 in Hin as [j Hj].
  rewrite (Hn j w Hj Hk) in Hd. discriminate.
Qed.

(** ** The primary window *)

Lemma slot_of_skeleton k s s' : skeleton s' = skeleton s -> slot k s' = slot k s.
Proof.
  unfold skeleton. intros E. injection E as _ Em En _. destruct k; assumption.
Qed.

Lemma closed_clears_slot h w s :
  consistent s -> windows s !! h = Some w -> destroyed w = false ->
  slot (kind w) (step s (Closed h)) = None /\ isDestroyed h (step s (Closed h)) = true.
Proof.
  intros I Hw Hd. pose proof (skeleton_close_window h w s I Hw Hd) as E. split.
  - simpl. rewrite (slot_of_skeleton _ _ _ E), slot_set_slot.
    rewrite decide_True by reflexivity. reflexivity.
  - unfold skeleton in E. injection E as Ew _ _ _.
    assert (Hl : alter mark_destroyed h (windows s) !! h = Some (mark_destroyed w))
      by (rewrite list_lookup_alter_eq, Hw; reflexivity).
    assert (Ew' : outline <$> alter mark_destroyed h (windows s)
                  = outline <$> windows (close_window h s)).
    { rewrite Ew. destruct (kind w); reflexivity. }
    destruct (outline_lookup _ _ h _ Ew' Hl) as (w' & Hw' & Ho).
    unfold outline in Ho. injection Ho as _ Hd' _ _.
    simpl. unfold isDestroyed. rewrite Hw'. exact Hd'.
Qed.

(** C1. Whatever the events the process handles (the global shortcut that
    calls [ensureMainWindow], the other call sites of [createMainWindow],
    windows closing, and all the rest), at most one primary window is open
    afterwards.  [createMainWindow] itself always builds a window and takes
    the slot; [ensureMainWindow] calls it only when [mainWindow] is [null] or
    destroyed, else it restores, shows and focuses the window it has and
    builds none; and the ['closed'] listener of every window built clears
    [mainWindow] when that window closes. *)
Theorem single_primary_window :
  (forall p evs, length (live_windows PrimaryWindow (run evs (boot p))) <= 1)
  /\ (forall s,
        windows (createMainWindow s) = windows s ++ [fresh_main]
        /\ mainWindow (createMainWindow s) = Some (length (windows s)))
  /\ (forall s, live_main s = None -> ensureMainWindow s = createMainWindow s)
  /\ (forall s h, live_main s = Some h ->
        length (windows (ensureMainWindow s)) = length (windows s)
        /\ mainWindow (ensureMainWindow s) = Some h
        /\ isMinimized h (ensureMainWindow s) = false
        /\ isVisible h (ensureMainWindow s) = true
        /\ focused (ensureMainWindow s) = Some h)
  /\ (forall p evs h w,
        windows (run evs (boot p)) !! h = Some w ->
        kind w = PrimaryWindow -> destroyed w = false ->
        on_closed w = [ClearMainWindow]
        /\ mainWindow (step (run evs (boot p)) (Closed h)) = None
        /\ isDestroyed h (step (run evs (boot p)) (Closed h)) = true).
Proof.
  split; [|split; [|split; [|split]]].
  - intros p evs. apply live_windows_at_most_one, reachable_consistent.
  - intros s. rewrite createMainWindow_eq. split; reflexivity.
  - intros s H. unfold ensureMainWindow. now rewrite H.
  - intros s h H. unfold ensureMainWindow. rewrite H.
    assert (Hm : mainWindow s = Some h /\ isDestroyed h s = false).
    { unfold live_main in H. destruct (mainWindow s) as [h'|]; [|discriminate].
      destruct (isDestroyed h' s) eqn:E; [discriminate|].
      injection H as ->. auto. }
    destruct Hm as [Hm Hd]. unfold isDestroyed in Hd.
    destruct (windows s !! h) as [w|] eqn:Hw; [|discriminate].
    unfold isMinimized, isVisible. rewrite Hw.
    destruct (minimized w) eqn:Emin; simpl;
      rewrite ?length_alter, ?list_lookup_alter_eq, ?Hw; simpl;
      rewrite ?list_lookup_alter_eq, ?Hw; simpl; auto.
  - intros p evs h w Hw Hk Hd.
    pose proof (reachable_consistent p evs) as I.
    pose proof (closed_clears_slot h w _ I Hw Hd) as [H1 H2].
    rewrite Hk in H1. rewrite (closed_clears _ I h w Hw), Hk. auto.
Qed.

Lemma single_primary_window_witness :
  length (live_windows PrimaryWindow
            (run [Ready true; Closed 0; Activate; Shortcut "Control+Option+G";
                  Click NewChat None] (boot "darwin"))) <= 1
  /\ (live_main (boot "darwin") = None
      /\ ensureMainWindow (boot "darwin") = createMainWindow (boot "darwin")
      /\ mainWindow (createMainWindow (boot "darwin")) = Some 0)
  /\ (live_main (run [Ready true; Minimize 0] (boot "darwin")) = Some 0
      /\ isMinimized 0 (ensureMainWindow (run [Ready true; Minimize 0] (boot "darwin")))
         = false
      /\ focused (ensureMainWindow (run [Ready true; Minimize 0] (boot "darwin")))
         = Some 0)
  /\ (windows (run [Ready true] (boot "darwin")) !! 0 = Some fresh_main
      /\ mainWindow (step (run [Ready true] (boot "darwin")) (Closed 0)) = None).
Proof.
  destruct single_primary_window as (H1 & H2 & H2' & H3 & H4).
  split; [apply H1|]. split; [|split].
  - split; [reflexivity|].
    split; [exact (H2' (boot "darwin") eq_refl)|].
    destruct (H2 (boot "darwin")) as (_ & E). exact E.
  - split; [reflexivity|].
    destruct (H3 (run [Ready true; Minimize 0] (boot "darwin")) 0 eq_refl)
      as (_ & _ & E3 & _ & E5). auto.
  - split; [reflexivity|].
    destruct (H4 "darwin" [Ready true] 0 fresh_main eq_refl eq_refl eq_refl)
      as (_ & E2 & _). exact E2.
Defined.

(** ** Command actions without a primary window *)

Lemma click_without_window c fault s :
  In c primary_commands -> live_main s = None -> click c fault s = s.
Proof.
  intros Hc Hn. simpl in Hc.
  repeat (destruct Hc as [<-|Hc]); try contradiction;
    unfold click, copyChatUrl, openInBrowser, saveChatAsPdf, saveChatAsText,
      screenshotWindow, export_call, resetWindowSize;
    rewrite Hn; reflexivity.
Qed.

(** C2. A command action on the primary window, clicked while [mainWindow]
    is [null] or destroyed, leaves the whole state as it is: no dialog, no
    file, no clipboard write (the effect log is the same), both slots
    unchanged, nothing left pending. *)
Theorem no_window_no_effect :
  forall c fault s,
    In c primary_commands -> live_main s = None ->
    click c fault s = s
    /\ step s (Click c fault) = s
    /\ (forall k, export_call k s = (s, Returned NoWindow))
    /\ openInBrowser s = (s, Returned NoWindow).
Proof.
  intros c fault s Hc Hn.
  pose proof (click_without_window c fault s Hc Hn) as E.
  split; [exact E|]. split; [|split].
  - simpl. rewrite E. destruct (bool_decide _); reflexivity.
  - intros k. unfold export_call. now rewrite Hn.
  - unfold openInBrowser. now rewrite Hn.
Qed.

Lemma no_window_no_effect_witness :
  live_main (run [Ready true; Closed 0] (boot "linux")) = None
  /\ step (run [Ready true; Closed 0] (boot "linux")) (Click SaveChatAsPdf None)
     = run [Ready true; Closed 0] (boot "linux")
  /\ step (run [Ready true; Closed 0] (boot "linux")) (Click CopyChatUrl None)
     = run [Ready true; Closed 0] (boot "linux").
Proof.
  split; [reflexivity|]. split.
  - apply (no_window_no_effect SaveChatAsPdf None
             (run [Ready true; Closed 0] (boot "linux")));
      [simpl; tauto|reflexivity].
  - apply (no_window_no_effect CopyChatUrl None
             (run [Ready true; Closed 0] (boot "linux")));
      [simpl; tauto|reflexivity].
Defined.

(** ** New chat *)

Lemma live_main_inv s h :
  live_main s = Some h ->
  mainWindow s = Some h /\ exists w, windows s !! h = Some w /\ destroyed w = false.
Proof.
  unfold live_main, isDestroyed. intros H.
  destruct (mainWindow s) as [h'|]; [|discriminate].
  destruct (windows s !! h') as [w|] eqn:Hw; [|discriminate].
  destruct (destroyed w) eqn:Hd; [discriminate|].
  injection H as <-. eauto.
Qed.

Lemma live_main_intro s h w :
  mainWindow s = Some h -> windows s !! h = Some w -> destroyed w = false ->
  live_main s = Some h.
Proof.
  intros Hm Hw Hd. unfold live_main, isDestroyed. now rewrite Hm, Hw, Hd.
Qed.

(** C4. [newChat] builds the primary window when there is none; when there
    is one it keeps it (the same handle stays in [mainWindow], no window is
    built, the other windows are untouched) and sends it back to
    [https://chatgpt.com]. *)
Theorem newChat_returns_to_start :
  (forall s, live_main s = None ->
     newChat s = createMainWindow s
     /\ live_main (newChat s) = Some (length (windows s))
     /\ getURL (length (windows s)) (newChat s) = "https://chatgpt.com")
  /\ (forall s h, live_main s = Some h ->
     mainWindow (newChat s) = Some h
     /\ live_main (newChat s) = Some h
     /\ length (windows (newChat s)) = length (windows s)
     /\ getURL h (newChat s) = "https://chatgpt.com"
     /\ (forall j, j <> h -> windows (newChat s) !! j = windows s !! j)).
Proof.
  split.
  - intros s H. unfold newChat. rewrite H. split; [reflexivity|].
    rewrite createMainWindow_eq. split.
    + apply (live_main_intro _ _ fresh_main); try reflexivity.
      simpl. apply list_lookup_middle. reflexivity.
    + unfold getURL. simpl. rewrite list_lookup_middle by reflexivity. reflexivity.
  - intros s h H. unfold newChat. rewrite H.
    destruct (live_main_inv s h H) as (Hm & w & Hw & Hd).
    assert (Hw' : windows (loadURL h canonical_address s) !! h
                  = Some (with_webContents (set_URL canonical_address) w))
      by (simpl; rewrite list_lookup_alter_eq, Hw; reflexivity).
    split; [exact Hm|]. split; [|split; [|split]].
    + apply (live_main_intro (loadURL h canonical_address s) h _ Hm Hw' Hd).
    + simpl. apply length_alter.
    + unfold getURL. rewrite Hw'. reflexivity.
    + intros j Hj. simpl. apply list_lookup_alter_ne. congruence.
Qed.

Lemma newChat_returns_to_start_witness :
  (live_main (run [Ready true; Closed 0] (boot "darwin")) = None
   /\ live_main (newChat (run [Ready true; Closed 0] (boot "darwin"))) = Some 1)
  /\ (live_main (loadURL 0 "https://chatgpt.com/c/42" (run [Ready true] (boot "darwin")))
      = Some 0
      /\ getURL 0 (newChat (loadURL 0 "https://chatgpt.com/c/42"
                              (run [Ready true] (boot "darwin"))))
         = "https://chatgpt.com").
Proof.
  destruct newChat_returns_to_start as [H1 H2]. split.
  - split; [reflexivity|].
    destruct (H1 (run [Ready true; Closed 0] (boot "darwin")) eq_refl) as (_ & E & _).
    exact E.
  - split; [reflexivity|].
    destruct (H2 (loadURL 0 "https://chatgpt.com/c/42" (run [Ready true] (boot "darwin")))
                 0 eq_refl) as (_ & _ & _ & E & _).
    exact E.
Defined.

(** ** Always on top *)

Lemma alter_fixed {A} (f : A -> A) h (l : list A) x :
  l !! h = Some x -> f x = x -> alter f h l = l.
Proof.
  revert h; induction l as [|y l IH]; intros [|h] H E; try discriminate.
  - injection H as ->. cbn. now rewrite E.
  - cbn. f_equal. now apply IH.
Qed.

Lemma set_windows_same s : set_windows (windows s) s = s.
Proof. destruct s; reflexivity. Qed.

(** C7. On a live primary window a click on "Always On Top" reads the flag
    and sets its negation, so a second click brings the flag, and the whole
    state, back. *)
Theorem always_on_top_twice :
  forall s h fault fault',
    live_main s = Some h ->
    isAlwaysOnTop h (click AlwaysOnTop fault s) = negb (isAlwaysOnTop h s)
    /\ isAlwaysOnTop h (click AlwaysOnTop fault' (click AlwaysOnTop fault s))
       = isAlwaysOnTop h s
    /\ click AlwaysOnTop fault' (click AlwaysOnTop fault s) = s.
Proof.
  intros s h fault fault' H.
  destruct (live_main_inv s h H) as (Hm & w & Hw & Hd).
  assert (E1 : click AlwaysOnTop fault s
               = setAlwaysOnTop h (negb (alwaysOnTop w)) s).
  { unfold click. rewrite H. unfold isAlwaysOnTop. now rewrite Hw. }
  assert (Hw1 : windows (click AlwaysOnTop fault s) !! h
                = Some (with_alwaysOnTop (negb (alwaysOnTop w)) w)).
  { rewrite E1. simpl. rewrite list_lookup_alter_eq, Hw. reflexivity. }
  assert (H1 : live_main (click AlwaysOnTop fault s) = Some h).
  { apply (live_main_intro _ h _ (eq_trans (f_equal mainWindow E1) Hm) Hw1 Hd). }
  assert (E2 : click AlwaysOnTop fault' (click AlwaysOnTop fault s) = s).
  { unfold click at 1. rewrite H1. unfold isAlwaysOnTop at 1. rewrite Hw1.
    rewrite E1. unfold setAlwaysOnTop, update_window. simpl.
    rewrite list_alter_alter_eq.
    rewrite (alter_fixed _ h (windows s) w Hw).
    - transitivity (set_windows (windows s) s); [reflexivity|apply set_windows_same].
    - destruct w; simpl. now rewrite negb_involutive. }
  split; [|split; [|exact E2]].
  - unfold isAlwaysOnTop. rewrite Hw1, Hw. reflexivity.
  - now rewrite E2.
Qed.

Lemma always_on_top_twice_witness :
  live_main (run [Ready true] (boot "darwin")) = Some 0
  /\ isAlwaysOnTop 0 (click AlwaysOnTop None (run [Ready true] (boot "darwin"))) = true
  /\ isAlwaysOnTop 0 (click AlwaysOnTop None
                        (click AlwaysOnTop None (run [Ready true] (boot "darwin"))))
     = false.
Proof.
  split; [reflexivity|].
  destruct (always_on_top_twice (run [Ready true] (boot "darwin")) 0 None None eq_refl)
    as (E1 & E2 & _).
  split; [exact E1|exact E2].
Defined.

(** ** Zoom *)

Lemma live_main_skeleton s s' : skeleton s' = skeleton s -> live_main s' = live_main s.
Proof.
  unfold skeleton. intros E. injection E as Ew Em _ _.
  unfold live_main. rewrite Em. destruct (mainWindow s) as [h|]; [|reflexivity].
  assert (Ed : isDestroyed h s' = isDestroyed h s); [|now rewrite Ed].
  unfold isDestroyed. apply (f_equal (fun l => l !! h)) in Ew.
  rewrite !list_lookup_fmap in Ew.
  destruct (windows s' !! h), (windows s !! h); simpl in Ew; try discriminate;
    [|reflexivity].
  unfold outline in Ew. now injection Ew as _ -> _ _.
Qed.

Lemma zoom_setZoomFactor s h w f :
  windows s !! h = Some w -> zoom h (setZoomFactor h f s) = f.
Proof.
  intros Hw. unfold zoom. simpl. rewrite list_lookup_alter_eq, Hw. reflexivity.
Qed.

Lemma live_main_click c fault s :
  c <> NewChat -> c <> NotesWindowItem ->
  live_main (click c fault s) = live_main s.
Proof. intros H1 H2. now apply live_main_skeleton, skeleton_click. Qed.

(** C5. Zoom In and Zoom Out set nothing.  Each handler calls
    [wc.getZoomFactor] with a function that would call [setZoomFactor], but
    the accessor returns the factor and never calls that function, and the
    handler drops what is returned: whatever the state, a click on either
    entry leaves it as it is.  After start-up the factor is 1.0 and stays 1.0
    after Zoom In (1.1 would be the sum) and after Zoom Out (0.9 would be the
    difference).  Reset Zoom calls [setZoomFactor(1.0)] itself and does set
    1.0. *)
Theorem zoom_in_out_set_nothing :
  (forall s fault, click ZoomIn fault s = s /\ click ZoomOut fault s = s)
  /\ (forall wc argument s, snd (getZoomFactor wc argument s) = s)
  /\ (forall p,
        zoom 0 (run [Ready true] (boot p)) = 1.0%float
        /\ zoom 0 (run [Ready true; Click ZoomIn None] (boot p)) = 1.0%float
        /\ zoom 0 (run [Ready true; Click ZoomOut None] (boot p)) = 1.0%float)
  /\ ((1.0 + 0.1 =? 1.0)%float = false
      /\ (JS.Math_max 0.5 (1.0 - 0.1) =? 1.0)%float = false)
  /\ (forall s h fault,
        live_main s = Some h -> zoom h (click ResetZoom fault s) = 1.0%float).
Proof.
  assert (H : forall s fault, click ZoomIn fault s = s /\ click ZoomOut fault s = s).
  { intros s fault. unfold click. destruct (live_main s); split; reflexivity. }
  split; [exact H|]. split; [reflexivity|]. split; [|split].
  - intros p. split; [reflexivity|].
    assert (Es : forall c, c = ZoomIn \/ c = ZoomOut ->
                 run [Ready true; Click c None] (boot p) = run [Ready true] (boot p)).
    { intros c Hc.
      change (run [Ready true; Click c None] (boot p))
        with (step (run [Ready true] (boot p)) (Click c None)).
      unfold step at 1. destruct (bool_decide _); [|reflexivity].
      destruct Hc as [-> | ->]; apply H. }
    rewrite !Es by auto. split; reflexivity.
  - split; vm_compute; reflexivity.
  - intros s h fault Hl. destruct (live_main_inv s h Hl) as (_ & w & Hw & _).
    unfold click. rewrite Hl. apply (zoom_setZoomFactor s h w _ Hw).
Qed.

Lemma run_cons e evs s : run (e :: evs) s = run evs (step s e).
Proof. reflexivity. Qed.

Lemma run_ZoomIn fault n s : run (repeat (Click ZoomIn fault) n) s = s.
Proof.
  induction n as [|n IH]; [reflexivity|].
  cbn [repeat]. rewrite run_cons.
  assert (Es : step s (Click ZoomIn fault) = s).
  { unfold step. destruct (bool_decide _); [|reflexivity].
    unfold click. destruct (live_main s); reflexivity. }
  rewrite Es. exact IH.
Qed.

(** C10. Zoom In does not grow the factor.  The sum [f + 0.1] is computed
    only inside the function handed to [getZoomFactor], which is never
    called: however often Zoom In is clicked after start-up, on any platform,
    the factor of the primary window is 1.0 as it was built, and the state is
    the one before the clicks. *)
Theorem zoom_in_never_grows :
  forall p n,
    run (Ready true :: repeat (Click ZoomIn None) n) (boot p) = run [Ready true] (boot p)
    /\ zoom 0 (run (Ready true :: repeat (Click ZoomIn None) n) (boot p)) = 1.0%float.
Proof.
  intros p n. rewrite run_cons, run_ZoomIn. split; reflexivity.
Qed.

(** ** The global shortcut *)

(** C8. When [globalShortcut.register] fails, [registerGlobalShortcuts] only
    writes to the console: no dialog is shown, and start-up goes on (the menu
    is set, the primary window is built, ['activate'] is listened to, nothing
    quits).  One accelerator is registered when it succeeds.  At
    ['will-quit'] every registration is released, and nothing else changes. *)
Theorem shortcut_failure_is_logged :
  (forall s, registerGlobalShortcuts false s
             = log (ConsoleError "Failed to register global shortcut" None) s)
  /\ (forall s ok, existsb is_dialog (emitted s (registerGlobalShortcuts ok s)) = false)
  /\ (forall p,
        effects (step (boot p) (Ready false))
        = [ConsoleError "Failed to register global shortcut" None]
        /\ live_main (step (boot p) (Ready false)) = Some 0
        /\ applicationMenu (app (step (boot p) (Ready false)))
           = template (String.eqb p "darwin") "GPT"
        /\ on_activate (app (step (boot p) (Ready false))) = true
        /\ quitting (app (step (boot p) (Ready false))) = false
        /\ globalShortcuts (app (step (boot p) (Ready false))) = [])
  /\ (forall p,
        globalShortcuts (app (step (boot p) (Ready true)))
        = [if String.eqb p "darwin" then "Control+Option+G" else "Control+Alt+G"]
        /\ effects (step (boot p) (Ready true)) = [])
  /\ (forall s,
        globalShortcuts (app (step s WillQuit)) = []
        /\ windows (step s WillQuit) = windows s
        /\ mainWindow (step s WillQuit) = mainWindow s
        /\ notesWindow (step s WillQuit) = notesWindow s
        /\ effects (step s WillQuit) = effects s).
Proof.
  split; [reflexivity|]. split; [|split; [|split]].
  - intros s ok. unfold emitted, registerGlobalShortcuts.
    destruct ok; simpl.
    + rewrite drop_all. reflexivity.
    + rewrite drop_app_length. reflexivity.
  - intros p. repeat split; reflexivity.
  - intros p. unfold step, whenReady, registerGlobalShortcuts, isMac; simpl.
    destruct (String.eqb p "darwin"); split; reflexivity.
  - intros s. repeat split; reflexivity.
Qed.

(** ** The save dialog *)

(** C9. In the three export functions a dialog result that is not canceled
    but has an empty or absent [filePath] ends the function like a
    cancellation, at the same [return]: the state is untouched, so nothing is
    rendered, captured or written. *)
Theorem empty_path_is_cancel :
  forall k s filePath anyPath,
    JS.falsy filePath = true ->
    resume (AwaitSaveDialog k) (Resolved (SaveDialogReturn false filePath)) s
    = Some (s, Returned CanceledPrompt)
    /\ resume (AwaitSaveDialog k) (Resolved (SaveDialogReturn false filePath)) s
       = resume (AwaitSaveDialog k) (Resolved (SaveDialogReturn true anyPath)) s
    /\ (forall task,
          pending s !! task = Some (Some (AwaitSaveDialog k)) ->
          step s (Settle task (Resolved (SaveDialogReturn false filePath)))
          = step s (Settle task (Resolved (SaveDialogReturn true anyPath)))
          /\ effects (step s (Settle task (Resolved (SaveDialogReturn false filePath))))
             = effects s
          /\ pending (step s (Settle task (Resolved (SaveDialogReturn false filePath))))
             !! task = Some None).
Proof.
  intros k s filePath anyPath Hf.
  assert (E : resume (AwaitSaveDialog k) (Resolved (SaveDialogReturn false filePath)) s
              = Some (s, Returned CanceledPrompt))
    by (simpl; now rewrite Hf).
  split; [exact E|]. split; [rewrite E; reflexivity|].
  intros task Hp. unfold step, settle. rewrite Hp, E. simpl.
  repeat split.
  apply list_lookup_insert_eq. eapply lookup_lt_Some, Hp.
Qed.

Lemma empty_path_is_cancel_witness :
  JS.falsy None = true /\ JS.falsy (Some EmptyString) = true
  /\ pending (run [Ready true; Click ScreenshotWindow None] (boot "darwin")) !! 0
     = Some (Some (AwaitSaveDialog Screenshot))
  /\ effects (step (run [Ready true; Click ScreenshotWindow None] (boot "darwin"))
                (Settle 0 (Resolved (SaveDialogReturn false (Some EmptyString)))))
     = effects (run [Ready true; Click ScreenshotWindow None] (boot "darwin"))
  /\ resume (AwaitSaveDialog Pdf) (Resolved (SaveDialogReturn false None))
       (run [Ready true] (boot "darwin"))
     = Some (run [Ready true] (boot "darwin"), Returned CanceledPrompt).
Proof.
  split; [reflexivity|]. split; [reflexivity|]. split; [reflexivity|]. split.
  - destruct (empty_path_is_cancel Screenshot
                (run [Ready true; Click ScreenshotWindow None] (boot "darwin"))
                (Some EmptyString) None eq_refl) as (_ & _ & H).
    destruct (H 0 eq_refl) as (_ & E & _). exact E.
  - destruct (empty_path_is_cancel Pdf (run [Ready true] (boot "darwin"))
                None None eq_refl) as (E & _). exact E.
Defined.

(** ** The notes window *)




(** ** The export actions *)

Lemma emitted_same s : emitted s s = [].
Proof. unfold emitted. apply drop_all. Qed.

Lemma emitted_log e s : emitted s (log e s) = [e].
Proof. unfold emitted. simpl. apply drop_app_length. Qed.

Lemma emitted_catch k err s :
  emitted s (fst (export_catch k err s)) = failure_report k err.
Proof.
  unfold emitted, export_catch, showErrorBox, console_error. simpl.
  rewrite <- app_assoc. apply drop_app_length.
Qed.

Lemma frame_refl s : frame s s.
Proof. split; try reflexivity. rewrite emitted_same, app_nil_r. reflexivity. Qed.

Lemma frame_log e s : frame s (log e s).
Proof. split; try reflexivity. rewrite emitted_log. reflexivity. Qed.

Lemma frame_catch k err s : frame s (fst (export_catch k err s)).
Proof.
  split; try reflexivity. rewrite emitted_catch.
  unfold export_catch, showErrorBox, console_error. simpl.
  rewrite <- app_assoc. reflexivity.
Qed.

Lemma frame_resume c a s s' d : resume c a s = Some (s', d) -> frame s s'.
Proof.
  intros H. destruct c as [k|k path|k|], a as [[canceled filePath|data|]|err];
    simpl in H; try discriminate H.
  - destruct (canceled || JS.falsy filePath).
    + injection H as <- <-. apply frame_refl.
    + destruct (mainWindow_webContents s) as [err|wc].
      * injection H as <- <-. apply (frame_catch k err s).
      * injection H as <- <-. apply frame_log.
  - injection H as <- <-. apply (frame_catch k err s).
  - injection H as <- <-. apply frame_log.
  - injection H as <- <-. apply (frame_catch k err s).
  - injection H as <- <-. apply frame_refl.
  - injection H as <- <-. apply (frame_catch k err s).
  - injection H as <- <-. apply frame_refl.
  - injection H as <- <-. split; try reflexivity.
    unfold emitted, showErrorBox, console_error. simpl.
    rewrite <- app_assoc, drop_app_length. reflexivity.
Qed.

Lemma drive_done schedule s via :
  drive schedule s (Returned via) = {| final := s; pieces := []; own := [] |}.
Proof. destruct schedule; reflexivity. Qed.

Lemma drive_step meanwhile answer rest s c :
  drive ((meanwhile, answer) :: rest) s (Suspended c)
  = match resume c answer (run meanwhile s) with
    | Some (s2, d2) =>
        {| final := final (drive rest s2 d2);
           pieces := d2 :: pieces (drive rest s2 d2);
           own := emitted (run meanwhile s) s2 ++ own (drive rest s2 d2) |}
    | None => {| final := run meanwhile s; pieces := []; own := [] |}
    end.
Proof. reflexivity. Qed.

Lemma resume_caught k err s :
  exists s', export_catch k err s = (s', Returned Caught)
             /\ emitted s s' = failure_report k err.
Proof.
  eexists. split; [reflexivity|]. apply (emitted_catch k err s).
Qed.

Ltac settle_report :=
  repeat (rewrite ?drive_done, ?emitted_same, ?emitted_log, ?app_nil_r; simpl).

(** The last piece: the answer to [writeFile]. *)
Lemma drive_write k schedule s :
  (pieces (drive schedule s (Suspended (AwaitWriteFile k))) = []
   /\ own (drive schedule s (Suspended (AwaitWriteFile k))) = [])
  \/ (pieces (drive schedule s (Suspended (AwaitWriteFile k))) = [Returned Completed]
      /\ own (drive schedule s (Suspended (AwaitWriteFile k))) = [])
  \/ (exists err,
        pieces (drive schedule s (Suspended (AwaitWriteFile k))) = [Returned Caught]
        /\ own (drive schedule s (Suspended (AwaitWriteFile k))) = failure_report k err).
Proof.
  destruct schedule as [|[m a] rest]; [left; split; reflexivity|].
  rewrite drive_step.
  destruct a as [[canceled filePath|data|]|err].
  - left; split; reflexivity.
  - left; split; reflexivity.
  - right; left. simpl. settle_report. auto.
  - right; right. exists err.
    change (resume (AwaitWriteFile k) (Rejected err) (run m s))
      with (Some (export_catch k err (run m s))).
    destruct (resume_caught k err (run m s)) as (s' & -> & E).
    simpl. settle_report. rewrite E. auto.
Qed.

Local Arguments emitted : simpl never.

(** Every invocation of an export action has one of the shapes. *)
Lemma invoke_shape k schedule s :
  run_shape k (pieces (invoke k schedule s)) (own (invoke k schedule s)).
Proof.
  unfold invoke, export_call. destruct (live_main s) as [h|].
  2: { settle_report. apply shape_no_window. }
  fold (prompt k h).
  destruct schedule as [|[m1 a1] r1].
  { simpl. settle_report. apply shape_prompting. }
  rewrite drive_step.
  destruct a1 as [[canceled filePath|data1|]|err1].
  - simpl resume. destruct (canceled || JS.falsy filePath).
    { simpl. settle_report. apply shape_canceled. }
    destruct (mainWindow_webContents (run m1 (log (prompt k h) s))) as [err|wc].
    { destruct (resume_caught k err (run m1 (log (prompt k h) s))) as (s' & -> & E).
      simpl. settle_report. rewrite E. apply shape_prompt_failed. }
    destruct r1 as [|[m2 a2] r2].
    { simpl. settle_report. apply shape_producing. }
    rewrite drive_step.
    destruct a2 as [[canceled2 filePath2|data|]|err2].
    + simpl. settle_report. apply shape_producing.
    + simpl resume. cbv iota beta.
      destruct (drive_write k r2
                  (log (write_request k (JS.or_else filePath EmptyString) data)
                     (run m2 (log (request_content k wc) (run m1 (log (prompt k h) s))))))
        as [[-> ->]|[[-> ->]|(err & -> & ->)]];
        simpl; settle_report.
      * apply shape_writing.
      * apply shape_success.
      * apply shape_write_failed.
    + simpl. settle_report. apply shape_producing.
    + change (resume (AwaitContent k (JS.or_else filePath EmptyString)) (Rejected err2)
                (run m2 (log (request_content k wc) (run m1 (log (prompt k h) s)))))
        with (Some (export_catch k err2
                (run m2 (log (request_content k wc) (run m1 (log (prompt k h) s)))))).
      destruct (resume_caught k err2
                  (run m2 (log (request_content k wc) (run m1 (log (prompt k h) s)))))
        as (s' & -> & E).
      simpl. settle_report. rewrite E. apply shape_content_failed.
  - simpl. settle_report. apply shape_prompting.
  - simpl. settle_report. apply shape_prompting.
  - change (resume (AwaitSaveDialog k) (Rejected err1) (run m1 (log (prompt k h) s)))
      with (Some (export_catch k err1 (run m1 (log (prompt k h) s)))).
    destruct (resume_caught k err1 (run m1 (log (prompt k h) s))) as (s' & -> & E).
    simpl. settle_report. rewrite E. apply shape_prompt_failed.
Qed.

Lemma settle_frame s task a :
  app (step s (Settle task a)) = app s
  /\ windows (step s (Settle task a)) = windows s
  /\ mainWindow (step s (Settle task a)) = mainWindow s
  /\ notesWindow (step s (Settle task a)) = notesWindow s.
Proof.
  simpl. unfold settle.
  destruct (pending s !! task) as [[c|]|]; try (repeat split; reflexivity).
  destruct (resume c a s) as [[s' d]|] eqn:E; [|repeat split; reflexivity].
  destruct (frame_resume c a s s' d E) as [Fw Fm Fn _ Fa _ _].
  assert (Hd : forall err, d <> Threw err).
  { intros err ->. destruct c, a as [[]|]; simpl in E; try discriminate E;
      repeat match type of E with
             | context [if ?b then _ else _] => destruct b
             | context [match ?x with inl _ => _ | inr _ => _ end] => destruct x
             end; discriminate E. }
  destruct d as [c'|via|err]; [| |destruct (Hd err eq_refl)];
    simpl; rewrite <- Fa, <- Fw, <- Fm, <- Fn; repeat split; reflexivity.
Qed.

(** C3 as stated does not hold, twice.  An invocation whose content
    cannot be produced goes through [Writing] to [Failed] and never calls
    [writeFile], so it does not make exactly one write attempt; and a prompt
    whose promise rejects goes from [PromptingForPath] to [Failed], which is
    no edge of the machine as drawn. *)
Lemma export_machine_as_drawn_fails :
  (states_of (invoke Pdf
                [ ([], Resolved (SaveDialogReturn false (Some "/tmp/chat.pdf")));
                  ([], Rejected render_failed) ]
                (run [Ready true] (boot "darwin")))
   = [Idle; PromptingForPath; Writing; Failed; Idle]
   /\ writes (own (invoke Pdf
                     [ ([], Resolved (SaveDialogReturn false (Some "/tmp/chat.pdf")));
                       ([], Rejected render_failed) ]
                     (run [Ready true] (boot "darwin")))) = 0)
  /\ (states_of (invoke Pdf [ ([], Rejected render_failed) ]
                   (run [Ready true] (boot "darwin")))
      = [Idle; PromptingForPath; Failed; Idle]
      /\ walk drawn_edge
           (states_of (invoke Pdf [ ([], Rejected render_failed) ]
                         (run [Ready true] (boot "darwin")))) = false).
Proof. repeat split; vm_compute; reflexivity. Qed.

(** C3, amended. Every invocation of an export action is one of the runs of
    [run_shape]: it follows Idle -> PromptingForPath -> {Canceled -> Idle |
    Failed -> Idle | Writing -> {Success -> Idle | Failed -> Idle}}, where a
    canceled run has shown the prompt and nothing else, a failed run ends
    with a console entry and an error box that carry the failure (its
    message when it has one), and a successful run has called [writeFile]
    once and shown no error box.  No run calls [writeFile] twice, none leaves
    the function by an exception; and no piece of a run touches the windows,
    the two slots, or what the application has registered (so nothing
    quits). *)
Theorem export_state_machine :
  (forall k schedule s,
     run_shape k (pieces (invoke k schedule s)) (own (invoke k schedule s))
     /\ walk export_edge (states_of (invoke k schedule s)) = true
     /\ writes (own (invoke k schedule s)) <= 1
     /\ (In Canceled (states_of (invoke k schedule s)) ->
         exists h, own (invoke k schedule s) = [prompt k h])
     /\ (In Success (states_of (invoke k schedule s)) ->
         writes (own (invoke k schedule s)) = 1
         /\ existsb is_error_box (own (invoke k schedule s)) = false)
     /\ (In Failed (states_of (invoke k schedule s)) ->
         exists err es,
           own (invoke k schedule s) = es ++ failure_report k err
           /\ existsb is_error_box es = false)
     /\ (forall d err, In d (pieces (invoke k schedule s)) -> d <> Threw err))
  /\ (forall k err s,
        resume (AwaitSaveDialog k) (Rejected err) s = Some (export_catch k err s)
        /\ (forall path,
              resume (AwaitContent k path) (Rejected err) s = Some (export_catch k err s))
        /\ resume (AwaitWriteFile k) (Rejected err) s = Some (export_catch k err s)
        /\ emitted s (fst (export_catch k err s)) = failure_report k err
        /\ (forall c m, JS.message err = Some (String c m) ->
                        JS.message_or_self err = String c m))
  /\ (forall c a s s' d, resume c a s = Some (s', d) -> frame s s')
  /\ (forall k s, frame s (fst (export_call k s)))
  /\ (forall s task a,
        app (step s (Settle task a)) = app s
        /\ windows (step s (Settle task a)) = windows s
        /\ mainWindow (step s (Settle task a)) = mainWindow s
        /\ notesWindow (step s (Settle task a)) = notesWindow s).
Proof.
  split; [|split; [|split; [|split]]].
  - intros k schedule s. pose proof (invoke_shape k schedule s) as H.
    split; [exact H|]. unfold states_of.
    destruct H; (split; [reflexivity|]);
      (split; [destruct k; unfold writes; simpl; lia|]).
    all: split; [intros Hin; simpl in Hin; try (exfalso; intuition discriminate)|].
    all: try (exists h; reflexivity).
    all: split; [intros Hin; simpl in Hin; try (exfalso; intuition discriminate)|].
    all: try (destruct k; split; unfold writes; reflexivity).
    all: split; [intros Hin; simpl in Hin; try (exfalso; intuition discriminate)|].
    all: try (intros d e Hin; simpl in Hin; intuition (subst; discriminate)).
    + exists err, [prompt k h]. split; reflexivity.
    + exists err, [prompt k h; request_content k wc]. split; [reflexivity|].
      destruct k; reflexivity.
    + exists err, [prompt k h; request_content k wc; write_request k path data].
      split; [reflexivity|]. destruct k; reflexivity.
  - intros k err s. repeat split; try reflexivity.
    + apply emitted_catch.
    + intros c m H. unfold JS.message_or_self. rewrite H. reflexivity.
  - apply frame_resume.
  - intros k s. unfold export_call. destruct (live_main s); simpl.
    + apply frame_log.
    + apply frame_refl.
  - apply settle_frame.
Qed.

Lemma export_state_machine_witness :
  (In Success (states_of (invoke Text all_goes_well (run [Ready true] (boot "darwin"))))
   /\ writes (own (invoke Text all_goes_well (run [Ready true] (boot "darwin")))) = 1
   /\ existsb is_error_box
        (own (invoke Text all_goes_well (run [Ready true] (boot "darwin")))) = false)
  /\ (In Failed (states_of (invoke Text window_closed_meanwhile
                              (run [Ready true] (boot "darwin"))))
      /\ exists err es,
           own (invoke Text window_closed_meanwhile (run [Ready true] (boot "darwin")))
           = es ++ failure_report Text err
           /\ existsb is_error_box es = false)
  /\ (resume (AwaitWriteFile Pdf) (Rejected disk_full) (run [Ready true] (boot "darwin"))
      = Some (export_catch Pdf disk_full (run [Ready true] (boot "darwin")))
      /\ frame (run [Ready true] (boot "darwin"))
           (fst (export_catch Pdf disk_full (run [Ready true] (boot "darwin"))))
      /\ JS.message_or_self disk_full = "ENOSPC: no space left on device, write"%string).
Proof.
  destruct export_state_machine as (H1 & H2 & H3 & _).
  assert (Hs : In Success (states_of (invoke Text all_goes_well
                                        (run [Ready true] (boot "darwin")))))
    by (vm_compute; tauto).
  assert (Hf : In Failed (states_of (invoke Text window_closed_meanwhile
                                       (run [Ready true] (boot "darwin")))))
    by (vm_compute; tauto).
  split; [|split].
  - split; [exact Hs|].
    destruct (H1 Text all_goes_well (run [Ready true] (boot "darwin")))
      as (_ & _ & _ & _ & E & _).
    exact (E Hs).
  - split; [exact Hf|].
    destruct (H1 Text window_closed_meanwhile (run [Ready true] (boot "darwin")))
      as (_ & _ & _ & _ & _ & E & _).
    exact (E Hf).
  - destruct (H2 Pdf disk_full (run [Ready true] (boot "darwin")))
      as (_ & _ & E3 & _ & E5).
    split; [exact E3|]. split.
    + exact (H3 _ _ _ _ _ E3).
    + exact (E5 _ _ eq_refl).
Defined.

(** * Further properties of the program *)

(** ** What is wired up stays wired up *)

Lemma registry_run_listener l s : registry (run_listener l s) = registry s.
Proof.
  destruct l; try reflexivity. unfold run_listener.
  destruct (mainWindow s) as [h|]; [|reflexivity].
  destruct (isDestroyed h s); reflexivity.
Qed.

Lemma registry_run_listeners ls s : registry (run_listeners ls s) = registry s.
Proof.
  revert s. induction ls as [|l ls IH]; intros s; [reflexivity|].
  unfold run_listeners in *. simpl. rewrite IH. apply registry_run_listener.
Qed.

Lemma registry_createMainWindow s : registry (createMainWindow s) = registry s.
Proof. rewrite createMainWindow_eq. reflexivity. Qed.

Lemma registry_createNotesWindow s : registry (createNotesWindow s) = registry s.
Proof.
  destruct (live_notes s) as [h|] eqn:H.
  - unfold createNotesWindow. rewrite H. reflexivity.
  - rewrite (createNotesWindow_eq s H). reflexivity.
Qed.

Lemma registry_ensureMainWindow s : registry (ensureMainWindow s) = registry s.
Proof.
  unfold ensureMainWindow. destruct (live_main s) as [h|].
  - destruct (isMinimized h s); reflexivity.
  - apply registry_createMainWindow.
Qed.

Lemma registry_click c fault s : registry (click c fault s) = registry s.
Proof.
  destruct c; unfold click, newChat, copyChatUrl, openInBrowser,
    saveChatAsPdf, saveChatAsText, screenshotWindow, export_call, resetWindowSize,
    getZoomFactor, spawn;
    try apply registry_createNotesWindow;
    try (destruct (live_main s) as [h|];
         [|first [reflexivity | apply registry_createMainWindow]]);
    try (destruct (JS.falsy _); [reflexivity|]);
    try (destruct (windows s !! h); [|reflexivity]);
    try destruct fault; reflexivity.
Qed.

Lemma registry_resume c a s s' d : resume c a s = Some (s', d) -> registry s' = registry s.
Proof.
  unfold resume, export_catch, openInBrowser_settled. intros H.
  destruct c, a as [[]|]; try discriminate H;
    repeat match type of H with
           | context [if ?b then _ else _] => destruct b
           | context [match ?x with inl _ => _ | inr _ => _ end] => destruct x
           end;
    injection H as <- <-; reflexivity.
Qed.

Lemma registry_settle task a s : registry (settle task a s) = registry s.
Proof.
  unfold settle. destruct (pending s !! task) as [[c|]|]; try reflexivity.
  destruct (resume c a s) as [[s' d]|] eqn:E; [|reflexivity].
  apply registry_resume in E. rewrite <- E.
  destruct d as [c'|via|err]; try reflexivity.
  destruct c; reflexivity.
Qed.

Lemma registry_close_window h s : registry (close_window h s) = registry s.
Proof.
  unfold close_window. destruct (windows s !! h) as [w|]; [|reflexivity].
  destruct (destroyed w); [reflexivity|].
  set (s2 := if bool_decide _ then _ else _).
  assert (E2 : registry s2 = registry s)
    by (unfold s2; destruct (bool_decide _); reflexivity).
  rewrite <- E2, <- (registry_run_listeners (on_closed w) s2).
  destruct (_ =? 0)%nat; [|reflexivity].
  unfold window_all_closed. destruct (negb _); reflexivity.
Qed.

Lemma registry_ready_to_show h s : registry (ready_to_show h s) = registry s.
Proof.
  unfold ready_to_show. destruct (windows s !! h) as [w|]; [|reflexivity].
  destruct (destroyed w); [reflexivity|].
  rewrite registry_run_listeners. reflexivity.
Qed.

(** Apart from start-up and ['will-quit'], no event changes the platform, the
    name, the menu, the registered shortcuts or the ['activate'] listener. *)
Lemma registry_step s e :
  is_Ready e = false -> e <> WillQuit -> registry (step s e) = registry s.
Proof.
  intros Hr Hq. destruct e; try discriminate Hr; try contradiction; simpl.
  - destruct (on_activate (app s)); [|reflexivity].
    unfold activate. destruct (_ =? 0)%nat; [|reflexivity].
    apply registry_createMainWindow.
  - destruct (bool_decide _); [apply registry_click|reflexivity].
  - destruct (bool_decide _); [apply registry_ensureMainWindow|reflexivity].
  - apply registry_ready_to_show.
  - destruct (isDestroyed h s); reflexivity.
  - apply registry_close_window.
  - apply registry_settle.
Qed.

Lemma platform_step s e : platform (step s e) = platform s.
Proof.
  assert (H : is_Ready e = false -> e <> WillQuit -> platform (step s e) = platform s).
  { intros Hr Hq. pose proof (registry_step s e Hr Hq) as E.
    unfold registry in E. now injection E. }
  destruct e; try (apply H; [reflexivity|discriminate]); [|reflexivity].
  simpl. destruct (ready (app s)); [reflexivity|].
  unfold whenReady, registerGlobalShortcuts.
  rewrite createMainWindow_eq. destruct registered; reflexivity.
Qed.

Lemma platform_run evs s : platform (run evs s) = platform s.
Proof.
  revert s. induction evs as [|e evs IH]; intros s; [reflexivity|].
  simpl. rewrite IH. apply platform_step.
Qed.

(** ** The two windows live apart *)

(** X1. In every state the process reaches at most one notes window is open,
    and the two kinds of window do not touch each other's variable: closing
    an open window leaves the variable of the other kind as it was. *)
Theorem notes_window_apart :
  (forall p evs, length (live_windows NotesWindow (run evs (boot p))) <= 1)
  /\ (forall p evs h w,
        windows (run evs (boot p)) !! h = Some w -> destroyed w = false ->
        forall k, k <> kind w ->
        slot k (step (run evs (boot p)) (Closed h)) = slot k (run evs (boot p))).
Proof.
  split.
  - intros p evs. apply live_windows_at_most_one, reachable_consistent.
  - intros p evs h w Hw Hd k Hk.
    pose proof (reachable_consistent p evs) as I.
    pose proof (skeleton_close_window h w _ I Hw Hd) as E.
    simpl. rewrite (slot_of_skeleton _ _ _ E), slot_set_slot.
    rewrite decide_False by assumption. destruct k; reflexivity.
Qed.

Lemma notes_window_apart_witness :
  windows (run [Ready true; Click NotesWindowItem None] (boot "darwin")) !! 0
  = Some fresh_main
  /\ notesWindow (step (run [Ready true; Click NotesWindowItem None] (boot "darwin"))
                    (Closed 0)) = Some 1.
Proof.
  split; [reflexivity|].
  destruct notes_window_apart as [_ H].
  exact (H "darwin" [Ready true; Click NotesWindowItem None] 0 fresh_main
           eq_refl eq_refl NotesWindow ltac:(discriminate)).
Defined.

(** X2. The program never holds a stale handle: in every state it reaches,
    [mainWindow] and [notesWindow] are [null] or refer to an open window of
    their kind, so the [isDestroyed()] half of the guards never decides. *)
Theorem no_stale_handle :
  forall p evs k,
    live_slot k (run evs (boot p)) = slot k (run evs (boot p))
    /\ (forall h, slot k (run evs (boot p)) = Some h ->
          exists w, windows (run evs (boot p)) !! h = Some w
                    /\ destroyed w = false /\ kind w = k)
    /\ (slot k (run evs (boot p)) = None -> live_windows k (run evs (boot p)) = []).
Proof.
  intros p evs k. pose proof (reachable_consistent p evs) as I.
  assert (E : live_slot k (run evs (boot p)) = slot k (run evs (boot p))).
  { unfold live_slot. destruct (slot k _) as [h|] eqn:Hs; [|reflexivity].
    destruct (slot_open _ I k h Hs) as (w & Hw & Hd & _).
    unfold isDestroyed. now rewrite Hw, Hd. }
  split; [exact E|]. split.
  - apply (slot_open _ I k).
  - intros H. apply (live_windows_none k _ I). now rewrite E.
Qed.

Lemma no_stale_handle_witness :
  slot PrimaryWindow (run [Ready true; Minimize 0] (boot "linux")) = Some 0
  /\ exists w, windows (run [Ready true; Minimize 0] (boot "linux")) !! 0 = Some w
               /\ destroyed w = false /\ kind w = PrimaryWindow.
Proof.
  split; [reflexivity|].
  destruct (no_stale_handle "linux" [Ready true; Minimize 0] PrimaryWindow)
    as (_ & H & _).
  exact (H 0 eq_refl).
Defined.

(** ** Building a window emits nothing *)

Lemma quiet_createMainWindow s : effects (createMainWindow s) = effects s.
Proof. rewrite createMainWindow_eq. reflexivity. Qed.

(** ** Off macOS there is no notes window *)

Lemma fmap_alter_same {A B} (g : A -> B) (f : A -> A) h (l : list A) :
  (forall x, g (f x) = g x) -> g <$> alter f h l = g <$> l.
Proof.
  intros Hf. revert h; induction l as [|x l IH]; intros [|h]; try reflexivity.
  - cbn. f_equal. apply Hf.
  - cbn. f_equal. apply IH.
Qed.

Lemma kinds_update_window h f s :
  (forall w, kind (f w) = kind w) -> kinds (update_window h f s) = kinds s.
Proof. intros Hf. unfold kinds. simpl. now apply fmap_alter_same. Qed.

Lemma kinds_of_skeleton s s' : skeleton s' = skeleton s -> kinds s' = kinds s.
Proof.
  unfold skeleton, kinds. intros E. injection E as Ew _ _ _.
  apply (f_equal (fmap (fun o : window_kind * bool * list listener * list listener =>
                          fst (fst (fst o))))) in Ew.
  rewrite <- !list_fmap_compose in Ew. exact Ew.
Qed.

Lemma notes_of_skeleton s s' : skeleton s' = skeleton s -> notesWindow s' = notesWindow s.
Proof. unfold skeleton. intros E. now injection E. Qed.

Lemma kinds_run_listener l s : kinds (run_listener l s) = kinds s.
Proof.
  destruct l; try reflexivity.
  apply kinds_of_skeleton, skeleton_run_show.
Qed.

Lemma notes_run_listener l s :
  notesWindow s = None -> notesWindow (run_listener l s) = None.
Proof.
  intros H. destruct l; try assumption; [reflexivity|].
  rewrite (notes_of_skeleton _ _ (skeleton_run_show s)). exact H.
Qed.

Lemma kinds_notes_run_listeners ls s :
  notesWindow s = None ->
  kinds (run_listeners ls s) = kinds s /\ notesWindow (run_listeners ls s) = None.
Proof.
  revert s. induction ls as [|l ls IH]; intros s H; [auto|].
  change (run_listeners (l :: ls) s) with (run_listeners ls (run_listener l s)).
  destruct (IH (run_listener l s) (notes_run_listener l s H)) as [E1 E2].
  rewrite E1, kinds_run_listener. auto.
Qed.

Lemma kinds_createMainWindow s :
  kinds (createMainWindow s) = kinds s ++ [PrimaryWindow]
  /\ notesWindow (createMainWindow s) = notesWindow s.
Proof.
  rewrite createMainWindow_eq. unfold kinds. simpl. rewrite fmap_app. auto.
Qed.

Lemma registry_inv s s' :
  registry s' = registry s ->
  platform s' = platform s /\ applicationMenu (app s') = applicationMenu (app s).
Proof. unfold registry. intros E. injection E as Ep _ _ Em _ _. auto. Qed.

Lemma primary_only_intro s s' :
  primary_only s ->
  platform s' = platform s -> applicationMenu (app s') = applicationMenu (app s) ->
  (kinds s' = kinds s \/ kinds s' = kinds s ++ [PrimaryWindow]) ->
  notesWindow s' = None ->
  primary_only s'.
Proof.
  intros (H1 & H2 & H2' & H3 & H4) Ep Em Ek En. unfold primary_only.
  rewrite Ep, Em. repeat split; try assumption.
  destruct Ek as [->| ->]; [assumption|].
  apply Forall_app. split; [assumption|]. repeat constructor.
Qed.

Lemma primary_only_skeleton s s' :
  primary_only s -> registry s' = registry s -> skeleton s' = skeleton s ->
  primary_only s'.
Proof.
  intros H R E. destruct (registry_inv _ _ R) as [Rp Rm].
  apply (primary_only_intro s); try assumption.
  - left. now apply kinds_of_skeleton.
  - rewrite (notes_of_skeleton _ _ E). apply H.
Qed.

Lemma primary_only_createMainWindow s :
  primary_only s -> primary_only (createMainWindow s).
Proof.
  intros H. destruct (kinds_createMainWindow s) as [Ek En].
  destruct (registry_inv _ _ (registry_createMainWindow s)) as [Rp Rm].
  apply (primary_only_intro s); auto. rewrite En. apply H.
Qed.

Lemma primary_only_step s e : primary_only s -> primary_only (step s e).
Proof.
  intros H. pose proof H as (H1 & H2 & H2' & H3 & H4).
  destruct e; unfold step.
  - destruct (ready (app s)); [assumption|].
    set (s' := whenReady registered (set_app (with_ready (app s)) s)).
    assert (E : platform s' = platform s
                /\ applicationMenu (app s') = template (isMac s) "GPT"
                /\ kinds s' = kinds s ++ [PrimaryWindow]
                /\ notesWindow s' = notesWindow s).
    { unfold s', whenReady, registerGlobalShortcuts, kinds.
      rewrite createMainWindow_eq.
      destruct registered; simpl; rewrite fmap_app; repeat split; reflexivity. }
    destruct E as (Ep & Em & Ek & En). unfold primary_only.
    rewrite Ep, Em, Ek, En. unfold isMac. rewrite H1.
    repeat split; try assumption; try reflexivity.
    apply Forall_app. split; [assumption|repeat constructor].
  - destruct (on_activate (app s)); [|assumption].
    unfold activate. destruct (_ =? 0)%nat; [|assumption].
    now apply primary_only_createMainWindow.
  - destruct (bool_decide (c ∈ _)) eqn:Hc; [|assumption].
    destruct (decide (c = NotesWindowItem)) as [->|Hn]; [congruence|].
    destruct (decide (c = NewChat)) as [->|Hnc].
    + unfold click, newChat. destruct (live_main s) as [h|].
      * apply (primary_only_skeleton s); [assumption|reflexivity|same_skeleton].
      * now apply primary_only_createMainWindow.
    + apply (primary_only_skeleton s); [assumption|apply registry_click|].
      now apply skeleton_click.
  - destruct (bool_decide (accelerator ∈ _)); [|assumption].
    unfold ensureMainWindow. destruct (live_main s) as [h|] eqn:Hl.
    + apply (primary_only_skeleton s); [assumption| |].
      * destruct (isMinimized h s); reflexivity.
      * pose proof (skeleton_ensure_live s h Hl) as E.
        unfold ensureMainWindow in E. now rewrite Hl in E.
    + now apply primary_only_createMainWindow.
  - destruct (registry_inv _ _ (registry_ready_to_show h s)) as [Rp Rm].
    apply (primary_only_intro s); try assumption.
    + left. unfold ready_to_show. destruct (windows s !! h) as [w|]; [|reflexivity].
      destruct (destroyed w); [reflexivity|].
      destruct (kinds_notes_run_listeners (once_ready_to_show w)
                  (update_window h (with_once_ready_to_show []) s) H4) as [E _].
      rewrite E. now apply kinds_update_window.
    + unfold ready_to_show. destruct (windows s !! h) as [w|]; [|assumption].
      destruct (destroyed w); [assumption|].
      apply (kinds_notes_run_listeners (once_ready_to_show w)
               (update_window h (with_once_ready_to_show []) s) H4).
  - destruct (isDestroyed h s); [assumption|].
    apply (primary_only_skeleton s); [assumption|reflexivity|same_skeleton].
  - destruct (registry_inv _ _ (registry_close_window h s)) as [Rp Rm].
    assert (E : kinds (close_window h s) = kinds s
                /\ notesWindow (close_window h s) = None).
    { unfold close_window. destruct (windows s !! h) as [w|]; [|auto].
      destruct (destroyed w); [auto|].
      set (s2 := if bool_decide (focused _ = _) then _ else _).
      assert (E2 : kinds s2 = kinds s /\ notesWindow s2 = None).
      { unfold s2. destruct (bool_decide (focused _ = _)); (split; [|exact H4]);
          now apply kinds_update_window. }
      destruct E2 as [E2 N2].
      destruct (kinds_notes_run_listeners (on_closed w) s2 N2) as [E3 N3].
      rewrite <- E2, <- E3.
      destruct (_ =? 0)%nat; [|auto].
      unfold window_all_closed. destruct (negb _); auto. }
    destruct E as [Ek En].
    apply (primary_only_intro s); auto.
  - apply (primary_only_skeleton s); [assumption|apply registry_settle|].
    apply skeleton_settle.
  - apply (primary_only_intro s); auto.
Qed.

Lemma primary_only_run evs s : primary_only s -> primary_only (run evs s).
Proof.
  revert s. induction evs as [|e evs IH]; intros s H; [assumption|].
  apply IH, primary_only_step, H.
Qed.

(** X4. The Window menu is built on macOS only, and it is the only way to
    [createNotesWindow] and to the always-on-top toggle.  So on another
    platform the process never has a notes window: [notesWindow] stays
    [null], every window built is a primary window, and a click on either
    entry is never handled. *)
Theorem no_notes_window_off_mac :
  forall p evs,
    String.eqb p "darwin" = false ->
    notesWindow (run evs (boot p)) = None
    /\ Forall (fun w => kind w = PrimaryWindow) (windows (run evs (boot p)))
    /\ (forall fault,
          step (run evs (boot p)) (Click NotesWindowItem fault) = run evs (boot p)
          /\ step (run evs (boot p)) (Click AlwaysOnTop fault) = run evs (boot p)).
Proof.
  intros p evs Hp.
  assert (H0 : primary_only (boot p)).
  { unfold primary_only. simpl. rewrite Hp. repeat split; constructor. }
  destruct (primary_only_run evs _ H0) as (_ & H2 & H2' & H3 & H4).
  split; [exact H4|]. split.
  - unfold kinds in H3. now apply Forall_fmap in H3.
  - intros fault. unfold step. rewrite H2, H2'. auto.
Qed.

Lemma no_notes_window_off_mac_witness :
  notesWindow (run [Ready true; Click NotesWindowItem None; Closed 0; Activate]
                 (boot "linux")) = None
  /\ Forall (fun w => kind w = PrimaryWindow)
        (windows (run [Ready true; Click NotesWindowItem None; Closed 0; Activate]
                    (boot "linux"))).
Proof.
  destruct (no_notes_window_off_mac "linux"
              [Ready true; Click NotesWindowItem None; Closed 0; Activate] eq_refl)
    as (H1 & H2 & _).
  split; [exact H1|exact H2].
Defined.

(** ** Activation and the last window *)

Lemma getAllWindows_nil s :
  (forall h w, windows s !! h = Some w -> destroyed w = true) -> getAllWindows s = [].
Proof.
  unfold getAllWindows. intros H.
  destruct (filter _ (windows s)) as [|x r] eqn:E; [reflexivity|]. exfalso.
  assert (Hx : x ∈ filter (fun w => destroyed w = false) (windows s))
    by (rewrite E; left).
  apply list_elem_of_filter in Hx as [Hd Hx].
  apply list_elem_of_lookup_1 in Hx as [j Hj].
  rewrite (H j x Hj) in Hd. discriminate.
Qed.

Lemma getAllWindows_cons s h w :
  windows s !! h = Some w -> destroyed w = false ->
  (length (getAllWindows s) =? 0)%nat = false.
Proof.
  intros Hw Hd.
  assert (Hx : w ∈ getAllWindows s).
  { apply list_elem_of_filter. split; [exact Hd|]. eapply list_elem_of_lookup_2, Hw. }
  destruct (getAllWindows s); [inversion Hx|reflexivity].
Qed.

(** X5. ['activate'] builds a primary window only when no window at all is
    open.  From any state the process reaches: with neither window open it
    builds the primary window, which becomes the live one; with any window
    open it does nothing, so while only the notes window is open, activation
    does not bring the primary window back. *)
Theorem activate_only_when_alone :
  forall p evs,
    on_activate (app (run evs (boot p))) = true ->
    (live_main (run evs (boot p)) = None -> live_notes (run evs (boot p)) = None ->
       step (run evs (boot p)) Activate = createMainWindow (run evs (boot p))
       /\ live_main (step (run evs (boot p)) Activate)
          = Some (length (windows (run evs (boot p)))))
    /\ (forall k h, live_slot k (run evs (boot p)) = Some h ->
          step (run evs (boot p)) Activate = run evs (boot p)).
Proof.
  intros p evs Ha. set (s := run evs (boot p)) in *.
  pose proof (reachable_consistent p evs) as I. fold s in I.
  unfold step. rewrite Ha. unfold activate. split.
  - intros Hm Hn.
    rewrite getAllWindows_nil.
    + split; [reflexivity|]. simpl. rewrite createMainWindow_eq.
      apply (live_main_intro _ _ fresh_main); try reflexivity.
      simpl. apply list_lookup_middle. reflexivity.
    + intros h w Hw. destruct (kind w) eqn:Hk.
      * apply (live_slot_None PrimaryWindow s I Hm h w Hw Hk).
      * apply (live_slot_None NotesWindow s I Hn h w Hw Hk).
  - intros k h Hl. unfold live_slot in Hl.
    destruct (slot k s) as [h'|] eqn:Hs; [|discriminate].
    destruct (slot_open s I k h' Hs) as (w & Hw & Hd & _).
    now rewrite (getAllWindows_cons s h' w Hw Hd).
Qed.

Lemma activate_only_when_alone_witness :
  (live_main (run [Ready true; Closed 0] (boot "darwin")) = None
   /\ live_main (step (run [Ready true; Closed 0] (boot "darwin")) Activate) = Some 1)
  /\ (live_slot NotesWindow
        (run [Ready true; Click NotesWindowItem None; Closed 0] (boot "darwin")) = Some 1
      /\ live_main (step (run [Ready true; Click NotesWindowItem None; Closed 0]
                            (boot "darwin")) Activate) = None).
Proof.
  split.
  - split; [reflexivity|].
    destruct (activate_only_when_alone "darwin" [Ready true; Closed 0] eq_refl)
      as [H _].
    destruct (H eq_refl eq_refl) as [_ E]. exact E.
  - split; [reflexivity|].
    destruct (activate_only_when_alone "darwin"
                [Ready true; Click NotesWindowItem None; Closed 0] eq_refl)
      as [_ H].
    rewrite (H NotesWindow 1 eq_refl). reflexivity.
Defined.

Lemma close_window_shape h w s :
  consistent s -> windows s !! h = Some w -> destroyed w = false ->
  exists s3,
    windows s3 = alter mark_destroyed h (windows s)
    /\ app s3 = app s /\ platform s3 = platform s
    /\ close_window h s
       = if (length (getAllWindows s3) =? 0)%nat then window_all_closed s3 else s3.
Proof.
  intros I Hw Hd. unfold close_window. rewrite Hw, Hd.
  rewrite (closed_clears s I h w Hw).
  eexists. split; [|split; [|split; [|reflexivity]]].
  all: destruct (bool_decide (focused _ = _)); destruct (kind w); reflexivity.
Qed.

(** X6. Closing the last open window asks the application to quit, except
    on macOS; closing a window while another one is open never does, and on
    macOS no closing does. *)
Theorem quit_with_last_window :
  forall p evs h w,
    windows (run evs (boot p)) !! h = Some w -> destroyed w = false ->
    (String.eqb p "darwin" = true ->
       app (step (run evs (boot p)) (Closed h)) = app (run evs (boot p)))
    /\ (forall j w', j <> h -> windows (run evs (boot p)) !! j = Some w' ->
          destroyed w' = false ->
          app (step (run evs (boot p)) (Closed h)) = app (run evs (boot p)))
    /\ (String.eqb p "darwin" = false ->
        (forall j w', j <> h -> windows (run evs (boot p)) !! j = Some w' ->
           destroyed w' = true) ->
        quitting (app (step (run evs (boot p)) (Closed h))) = true).
Proof.
  intros p evs h w Hw Hd. set (s := run evs (boot p)) in *.
  pose proof (reachable_consistent p evs) as I. fold s in I.
  assert (Hp : platform s = p) by apply platform_run.
  destruct (close_window_shape h w s I Hw Hd) as (s3 & Ew & Ea & Ep & E).
  unfold step. rewrite E. split; [|split].
  - intros Hmac. destruct (_ =? 0)%nat; [|exact Ea].
    unfold window_all_closed. rewrite Ep, Hp, Hmac. exact Ea.
  - intros j w' Hj Hw' Hd'.
    rewrite (getAllWindows_cons s3 j w'); [exact Ea| |exact Hd'].
    rewrite Ew, list_lookup_alter_ne; [exact Hw'|congruence].
  - intros Hmac Hall.
    rewrite getAllWindows_nil.
    + simpl. unfold window_all_closed. rewrite Ep, Hp, Hmac. reflexivity.
    + intros j w'. rewrite Ew. intros Hj.
      apply lookup_alter_inv in Hj as (w1 & Hw1 & [[-> ->]|[Hne ->]]);
        [reflexivity|].
      apply (Hall j w1 Hne Hw1).
Qed.

Lemma quit_with_last_window_witness :
  windows (run [Ready true] (boot "linux")) !! 0 = Some fresh_main
  /\ quitting (app (step (run [Ready true] (boot "linux")) (Closed 0))) = true
  /\ app (step (run [Ready true] (boot "darwin")) (Closed 0))
     = app (run [Ready true] (boot "darwin")).
Proof.
  split; [reflexivity|]. split.
  - destruct (quit_with_last_window "linux" [Ready true] 0 fresh_main eq_refl eq_refl)
      as (_ & _ & H).
    apply (H eq_refl). intros [|j] w' Hj Hw'; [contradiction|discriminate Hw'].
  - destruct (quit_with_last_window "darwin" [Ready true] 0 fresh_main eq_refl eq_refl)
      as (H & _).
    exact (H eq_refl).
Defined.

(** ** Window geometry and flags *)

Lemma alter_alter_same {A} (f g k : A -> A) h (l : list A) :
  (forall x, f (g x) = k x) -> alter f h (alter g h l) = alter k h l.
Proof.
  intros H. revert h; induction l as [|x l IH]; intros [|h]; try reflexivity.
  - cbn. f_equal. apply H.
  - cbn. f_equal. apply IH.
Qed.

Lemma resetWindowSize_eq s h :
  live_main s = Some h ->
  resetWindowSize s = update_window h (with_geometry (900, 700)%Z true) s.
Proof.
  intros H. unfold resetWindowSize. rewrite H.
  unfold center, setSize, update_window. simpl.
  rewrite (alter_alter_same _ _ (with_geometry (900, 700)%Z true));
    [reflexivity|]. intros []; reflexivity.
Qed.

(** X7. With a live primary window, [resetWindowSize] gives that window the
    size 900 by 700 and centers it, changes nothing else of it and no other
    window, and doing it again changes nothing. *)
Theorem resetWindowSize_default :
  forall s h,
    live_main s = Some h ->
    (exists w, windows s !! h = Some w
               /\ windows (resetWindowSize s) !! h
                  = Some (with_geometry (900, 700)%Z true w))
    /\ (forall j, j <> h -> windows (resetWindowSize s) !! j = windows s !! j)
    /\ live_main (resetWindowSize s) = Some h
    /\ effects (resetWindowSize s) = effects s
    /\ resetWindowSize (resetWindowSize s) = resetWindowSize s.
Proof.
  intros s h H. pose proof (resetWindowSize_eq s h H) as E.
  destruct (live_main_inv s h H) as (Hm & w & Hw & Hd).
  assert (Hl : live_main (resetWindowSize s) = Some h).
  { rewrite E. apply (live_main_intro _ h (with_geometry (900, 700)%Z true w)).
    - exact Hm.
    - simpl. rewrite list_lookup_alter_eq, Hw. reflexivity.
    - exact Hd. }
  split; [|split; [|split; [exact Hl|split]]].
  - exists w. split; [exact Hw|]. rewrite E. simpl.
    rewrite list_lookup_alter_eq, Hw. reflexivity.
  - intros j Hj. rewrite E. simpl. apply list_lookup_alter_ne. congruence.
  - rewrite E. reflexivity.
  - rewrite (resetWindowSize_eq _ h Hl), E. unfold update_window. simpl.
    rewrite (alter_alter_same _ _ (with_geometry (900, 700)%Z true));
      [reflexivity|]. intros []; reflexivity.
Qed.

Lemma resetWindowSize_default_witness :
  live_main (setSize 0 1200 300 (run [Ready true] (boot "darwin"))) = Some 0
  /\ exists w,
       windows (resetWindowSize (setSize 0 1200 300 (run [Ready true] (boot "darwin"))))
       !! 0 = Some w
       /\ size w = (900, 700)%Z /\ centered w = true.
Proof.
  split; [reflexivity|].
  destruct (resetWindowSize_default
              (setSize 0 1200 300 (run [Ready true] (boot "darwin"))) 0 eq_refl)
    as ((w & _ & E) & _).
  eexists. split; [exact E|]. split; reflexivity.
Defined.

Lemma toggle_eq s h fault :
  live_main s = Some h ->
  click ToggleFullScreen fault s = update_window h (fun w => with_fullScreen (negb (fullScreen w)) w) s
  /\ click AlwaysOnTop fault s = update_window h (fun w => with_alwaysOnTop (negb (alwaysOnTop w)) w) s.
Proof.
  intros H. destruct (live_main_inv s h H) as (_ & w & Hw & _).
  unfold click. rewrite H. unfold isFullScreen, isAlwaysOnTop. rewrite Hw.
  unfold setFullScreen, setAlwaysOnTop, update_window.
  split; f_equal; apply list_alter_ext; try reflexivity;
    intros x Hx; rewrite Hw in Hx; now injection Hx as <-.
Qed.

(** X8. With a live primary window the full-screen toggle is its own
    inverse, and the two toggles do not interfere: either one leaves the
    other flag alone, and they can be clicked in either order. *)
Theorem toggles_compose :
  forall s h fault,
    live_main s = Some h ->
    click ToggleFullScreen fault (click ToggleFullScreen fault s) = s
    /\ isFullScreen h (click ToggleFullScreen fault s) = negb (isFullScreen h s)
    /\ isAlwaysOnTop h (click ToggleFullScreen fault s) = isAlwaysOnTop h s
    /\ isFullScreen h (click AlwaysOnTop fault s) = isFullScreen h s
    /\ click AlwaysOnTop fault (click ToggleFullScreen fault s)
       = click ToggleFullScreen fault (click AlwaysOnTop fault s).
Proof.
  intros s h fault H.
  destruct (live_main_inv s h H) as (Hm & w & Hw & Hd).
  destruct (toggle_eq s h fault H) as [Ef Et].
  assert (Hlf : live_main (click ToggleFullScreen fault s) = Some h)
    by (rewrite live_main_click; [exact H|discriminate..]).
  assert (Hlt : live_main (click AlwaysOnTop fault s) = Some h)
    by (rewrite live_main_click; [exact H|discriminate..]).
  destruct (toggle_eq _ h fault Hlf) as [Eff Eft].
  destruct (toggle_eq _ h fault Hlt) as [Etf _].
  split; [|split; [|split; [|split]]].
  - rewrite Eff, Ef. unfold update_window. simpl.
    rewrite (alter_alter_same _ _ (fun w => w)).
    + rewrite list_alter_id by reflexivity.
      transitivity (set_windows (windows s) s); [reflexivity|apply set_windows_same].
    + intros []; simpl. now rewrite negb_involutive.
  - rewrite Ef. unfold isFullScreen. simpl.
    rewrite list_lookup_alter_eq, Hw. reflexivity.
  - rewrite Ef. unfold isAlwaysOnTop. simpl.
    rewrite list_lookup_alter_eq, Hw. reflexivity.
  - rewrite Et. unfold isFullScreen. simpl.
    rewrite list_lookup_alter_eq, Hw. reflexivity.
  - rewrite Eft, Etf, Ef, Et. unfold update_window. simpl.
    rewrite (alter_alter_same
               (fun w => with_alwaysOnTop (negb (alwaysOnTop w)) w)
               (fun w => with_fullScreen (negb (fullScreen w)) w)
               (fun w => with_alwaysOnTop (negb (alwaysOnTop w))
                           (with_fullScreen (negb (fullScreen w)) w)))
      by (intros []; reflexivity).
    rewrite (alter_alter_same
               (fun w => with_fullScreen (negb (fullScreen w)) w)
               (fun w => with_alwaysOnTop (negb (alwaysOnTop w)) w)
               (fun w => with_alwaysOnTop (negb (alwaysOnTop w))
                           (with_fullScreen (negb (fullScreen w)) w)))
      by (intros []; reflexivity).
    reflexivity.
Qed.

Lemma toggles_compose_witness :
  live_main (run [Ready true] (boot "darwin")) = Some 0
  /\ isFullScreen 0 (click ToggleFullScreen None (run [Ready true] (boot "darwin")))
     = true
  /\ click ToggleFullScreen None
       (click ToggleFullScreen None (run [Ready true] (boot "darwin")))
     = run [Ready true] (boot "darwin").
Proof.
  split; [reflexivity|].
  destruct (toggles_compose (run [Ready true] (boot "darwin")) 0 None eq_refl)
    as (E1 & E2 & _).
  split; [exact E2|exact E1].
Defined.

(** ** Copying and opening the address *)

(** X9. [copyChatUrl] with a live primary window: an empty address is not
    copied (nothing happens at all); a non-empty one is written to the
    clipboard, and that is the only effect; when the clipboard throws, the
    effects are the console entry and the error box with the failure, and no
    clipboard write.  In every case only the effect log changes. *)
Theorem copyChatUrl_cases :
  forall s h,
    live_main s = Some h ->
    (getURL h s = EmptyString -> forall fault, copyChatUrl fault s = s)
    /\ (getURL h s <> EmptyString ->
        emitted s (copyChatUrl None s) = [ClipboardWriteText (getURL h s)]
        /\ forall err,
             emitted s (copyChatUrl (Some err) s)
             = [ ConsoleError "Failed to copy URL:" (Some err);
                 ShowErrorBox "Copy URL Failed" (JS.message_or_self err) ])
    /\ (forall fault, frame s (copyChatUrl fault s)).
Proof.
  intros s h H. unfold copyChatUrl. rewrite H. split; [|split].
  - intros E fault. rewrite E. reflexivity.
  - intros Hne. destruct (getURL h s) as [|c r] eqn:E; [contradiction|]. simpl.
    split; [apply emitted_log|]. intros err.
    unfold emitted, showErrorBox, console_error. simpl.
    rewrite <- app_assoc. apply drop_app_length.
  - intros fault. destruct (JS.falsy _); [apply frame_refl|].
    destruct fault as [err|]; [|apply frame_log].
    split; try reflexivity.
    unfold emitted, showErrorBox, console_error. simpl.
    rewrite <- app_assoc, drop_app_length. reflexivity.
Qed.

Lemma copyChatUrl_cases_witness :
  live_main (run [Ready true] (boot "darwin")) = Some 0
  /\ emitted (run [Ready true] (boot "darwin"))
       (copyChatUrl None (run [Ready true] (boot "darwin")))
     = [ClipboardWriteText "https://chatgpt.com"]
  /\ copyChatUrl None (loadURL 0 EmptyString (run [Ready true] (boot "darwin")))
     = loadURL 0 EmptyString (run [Ready true] (boot "darwin")).
Proof.
  split; [reflexivity|]. split.
  - destruct (copyChatUrl_cases (run [Ready true] (boot "darwin")) 0 eq_refl)
      as (_ & H & _).
    destruct (H ltac:(discriminate)) as [E _]. exact E.
  - destruct (copyChatUrl_cases
                (loadURL 0 EmptyString (run [Ready true] (boot "darwin"))) 0 eq_refl)
      as (H & _).
    exact (H eq_refl None).
Defined.

Lemma insert_fresh {A} (l : list A) (x y : A) :
  <[length l := y]> (l ++ [x]) = l ++ [y].
Proof.
  induction l as [|z l IH]; cbn; [reflexivity|]. f_equal. apply IH.
Qed.

(** A suspended call that is the last of the pending ones, when its answer
    arrives. *)
Lemma settle_last P c a s s' d :
  pending s = P ++ [Some c] -> resume c a s = Some (s', d) ->
  settle (length P) a s
  = spawn (on_reject_of c) (set_pending (P ++ [None]) s', d).
Proof.
  intros Hp Hr. unfold settle.
  rewrite Hp, list_lookup_middle by reflexivity. rewrite Hr.
  rewrite (frame_pending _ _ (frame_resume c a s s' d Hr)), Hp, insert_fresh.
  reflexivity.
Qed.

(** X10. [openInBrowser] through the event loop, with a live primary window
    on a non-empty address: the click hands the address to the system and
    waits; when that promise rejects, the failure is logged and shown in an
    error box; when it resolves, nothing more happens.  The windows are not
    touched either way. *)
Theorem openInBrowser_settles :
  forall s h fault err,
    live_main s = Some h -> getURL h s <> EmptyString ->
    OpenInBrowser ∈ menu_commands (applicationMenu (app s)) ->
    effects (step s (Click OpenInBrowser fault)) = effects s ++ [OpenExternal (getURL h s)]
    /\ effects (run [ Click OpenInBrowser fault;
                      Settle (length (pending s)) (Rejected err) ] s)
       = effects s ++ [ OpenExternal (getURL h s);
                        ConsoleError "Failed to open in browser:" (Some err);
                        ShowErrorBox "Open in Browser Failed" (JS.message_or_self err) ]
    /\ effects (run [ Click OpenInBrowser fault;
                      Settle (length (pending s)) (Resolved Undefined) ] s)
       = effects s ++ [OpenExternal (getURL h s)]
    /\ windows (run [ Click OpenInBrowser fault;
                      Settle (length (pending s)) (Rejected err) ] s) = windows s.
Proof.
  intros s h fault err H Hne Hin.
  assert (E1 : step s (Click OpenInBrowser fault)
               = set_pending (pending s ++ [Some AwaitOpenExternal])
                   (log (OpenExternal (getURL h s)) s)).
  { unfold step. rewrite bool_decide_eq_true_2 by exact Hin.
    unfold click, openInBrowser. rewrite H.
    destruct (getURL h s) as [|c r]; [contradiction|]. reflexivity. }
  split; [rewrite E1; reflexivity|].
  unfold run, fold_left. rewrite E1. unfold step.
  set (s1 := set_pending _ _).
  rewrite (settle_last (pending s) AwaitOpenExternal (Rejected err) s1 _ _
             eq_refl eq_refl).
  rewrite (settle_last (pending s) AwaitOpenExternal (Resolved Undefined) s1 _ _
             eq_refl eq_refl).
  simpl. rewrite <- !app_assoc. auto.
Qed.

Lemma openInBrowser_settles_witness :
  live_main (run [Ready true] (boot "linux")) = Some 0
  /\ effects (run [ Click OpenInBrowser None; Settle 0 (Rejected disk_full) ]
                (run [Ready true] (boot "linux")))
     = [ OpenExternal "https://chatgpt.com";
         ConsoleError "Failed to open in browser:" (Some disk_full);
         ShowErrorBox "Open in Browser Failed" "ENOSPC: no space left on device, write" ].
Proof.
  split; [reflexivity|].
  assert (Hin : OpenInBrowser
                ∈ menu_commands (applicationMenu (app (run [Ready true] (boot "linux")))))
    by (apply list_elem_of_In; vm_compute; tauto).
  destruct (openInBrowser_settles (run [Ready true] (boot "linux")) 0 None disk_full
              eq_refl ltac:(discriminate) Hin)
    as (_ & E & _).
  exact E.
Defined.

(** ** An export from the click to the file *)

Lemma or_else_self data : JS.or_else (Some data) EmptyString = data.
Proof. destruct data; reflexivity. Qed.

Lemma settle_at n P c a s s' d :
  n = length P -> pending s = P ++ [Some c] -> resume c a s = Some (s', d) ->
  settle n a s = spawn (on_reject_of c) (set_pending (P ++ [None]) s', d).
Proof. intros ->. apply settle_last. Qed.

(** [mainWindow.webContents] after an [await], when the window the function
    started with is still the primary one. *)
Lemma mainWindow_webContents_live s s' h :
  live_main s = Some h -> windows s' = windows s -> mainWindow s' = mainWindow s ->
  mainWindow_webContents s' = inr h.
Proof.
  intros H Ew Em. destruct (live_main_inv s h H) as (Hm & w & Hw & Hd).
  unfold mainWindow_webContents, isDestroyed. now rewrite Em, Hm, Ew, Hw, Hd.
Qed.

Lemma click_export k fault s h :
  live_main s = Some h ->
  click (command_of k) fault s
  = set_pending (pending s ++ [Some (AwaitSaveDialog k)]) (log (prompt k h) s).
Proof.
  intros H. destruct k;
    unfold command_of, click, saveChatAsPdf, saveChatAsText, screenshotWindow,
      export_call; rewrite H; reflexivity.
Qed.

(** X11. An export from the click to the file, when nothing goes wrong and
    nothing else happens in between: with a live primary window, a path
    chosen in the dialog and the content the page gives, the program shows
    the dialog on that window, asks that window for the content, and writes
    exactly that content to exactly that path, as [utf8] for the text export
    and as it is for the other two; an empty text is written as an empty
    file.  Nothing else is emitted, no call is left pending, and the windows
    are as before.  When the write fails instead, the failure is logged and
    shown after these three effects. *)
Theorem export_writes_content :
  forall k s h fault path data,
    live_main s = Some h -> path <> EmptyString ->
    command_of k ∈ menu_commands (applicationMenu (app s)) ->
    (effects (run [ Click (command_of k) fault;
                    Settle (length (pending s))
                      (Resolved (SaveDialogReturn false (Some path)));
                    Settle (S (length (pending s))) (Resolved (Content data));
                    Settle (S (S (length (pending s)))) (Resolved Undefined) ] s)
     = effects s
       ++ [ prompt k h; request_content k h;
            WriteFile path data
              match k with Text => Some "utf8"%string | _ => None end ]
     /\ pending (run [ Click (command_of k) fault;
                       Settle (length (pending s))
                         (Resolved (SaveDialogReturn false (Some path)));
                       Settle (S (length (pending s))) (Resolved (Content data));
                       Settle (S (S (length (pending s)))) (Resolved Undefined) ] s)
        = pending s ++ [None; None; None]
     /\ windows (run [ Click (command_of k) fault;
                       Settle (length (pending s))
                         (Resolved (SaveDialogReturn false (Some path)));
                       Settle (S (length (pending s))) (Resolved (Content data));
                       Settle (S (S (length (pending s)))) (Resolved Undefined) ] s)
        = windows s)
    /\ (forall err,
          effects (run [ Click (command_of k) fault;
                         Settle (length (pending s))
                           (Resolved (SaveDialogReturn false (Some path)));
                         Settle (S (length (pending s))) (Resolved (Content data));
                         Settle (S (S (length (pending s)))) (Rejected err) ] s)
          = effects s
            ++ [ prompt k h; request_content k h;
                 WriteFile path data
                   match k with Text => Some "utf8"%string | _ => None end ]
            ++ failure_report k err).
Proof.
  intros k s h fault path data H Hne Hin.
  assert (Ew : write_request k path data
               = WriteFile path data
                   match k with Text => Some "utf8"%string | _ => None end)
    by (destruct k; unfold write_request; rewrite ?or_else_self; reflexivity).
  set (s1 := set_pending (pending s ++ [Some (AwaitSaveDialog k)]) (log (prompt k h) s)).
  assert (E1 : step s (Click (command_of k) fault) = s1).
  { unfold step. rewrite bool_decide_eq_true_2 by exact Hin.
    apply click_export, H. }
  set (s2 := set_pending (pending s ++ [None; Some (AwaitContent k path)])
               (log (request_content k h) s1)).
  assert (E2 : settle (length (pending s))
                 (Resolved (SaveDialogReturn false (Some path))) s1 = s2).
  { rewrite (settle_last (pending s) (AwaitSaveDialog k) _ s1
               (log (request_content k h) s1) (Suspended (AwaitContent k path))
               eq_refl).
    - unfold s2. simpl. rewrite <- app_assoc. reflexivity.
    - simpl. rewrite (mainWindow_webContents_live s s1 h H eq_refl eq_refl).
      destruct path as [|c r]; [contradiction|reflexivity]. }
  set (s3 := set_pending (pending s ++ [None; None; Some (AwaitWriteFile k)])
               (log (write_request k path data) s2)).
  assert (E3 : settle (S (length (pending s))) (Resolved (Content data)) s2 = s3).
  { rewrite (settle_at _ (pending s ++ [None]) (AwaitContent k path) _ s2
               (log (write_request k path data) s2) (Suspended (AwaitWriteFile k))).
    - unfold s3. simpl. rewrite <- !app_assoc. reflexivity.
    - rewrite length_app. simpl. lia.
    - unfold s2. simpl. rewrite <- app_assoc. reflexivity.
    - reflexivity. }
  assert (E4 : settle (S (S (length (pending s)))) (Resolved Undefined) s3
               = set_pending (pending s ++ [None; None; None]) s3).
  { rewrite (settle_at _ (pending s ++ [None; None]) (AwaitWriteFile k) _ s3
               s3 (Returned Completed)).
    - simpl. rewrite <- !app_assoc. reflexivity.
    - rewrite length_app. simpl. lia.
    - unfold s3. simpl. rewrite <- app_assoc. reflexivity.
    - reflexivity. }
  unfold run, fold_left. rewrite E1. unfold step. rewrite E2, E3. split.
  - rewrite E4, <- Ew. simpl. rewrite <- !app_assoc. auto.
  - intros err.
    rewrite (settle_at _ (pending s ++ [None; None]) (AwaitWriteFile k) _ s3
               (fst (export_catch k err s3)) (Returned Caught)).
    + rewrite <- Ew. simpl. rewrite <- !app_assoc. reflexivity.
    + rewrite length_app. simpl. lia.
    + unfold s3. simpl. rewrite <- app_assoc. reflexivity.
    + reflexivity.
Qed.

Lemma export_writes_content_witness :
  live_main (run [Ready true] (boot "linux")) = Some 0
  /\ effects (run [ Click SaveChatAsText None;
                    Settle 0 (Resolved (SaveDialogReturn false (Some "/tmp/chat.txt")));
                    Settle 1 (Resolved (Content EmptyString));
                    Settle 2 (Resolved Undefined) ]
                (run [Ready true] (boot "linux")))
     = [ ShowSaveDialog 0 "Save Chat as Text" "chatgpt-chat.txt" "Text" "txt";
         ExecuteJavaScript 0 "document.body.innerText" true;
         WriteFile "/tmp/chat.txt" EmptyString (Some "utf8") ].
Proof.
  split; [reflexivity|].
  assert (Hin : command_of Text
                ∈ menu_commands (applicationMenu (app (run [Ready true] (boot "linux")))))
    by (apply list_elem_of_In; vm_compute; tauto).
  destruct (export_writes_content Text (run [Ready true] (boot "linux")) 0 None
              "/tmp/chat.txt" EmptyString eq_refl ltac:(discriminate) Hin)
    as ((E & _) & _).
  exact E.
Defined.

(** ** The primary window closes behind the save dialog *)

(** What closing an open window leaves of the state. *)
Lemma close_window_facts h w s :
  consistent s -> windows s !! h = Some w -> destroyed w = false ->
  windows (close_window h s) = alter mark_destroyed h (windows s)
  /\ slot (kind w) (close_window h s) = None
  /\ effects (close_window h s) = effects s
  /\ pending (close_window h s) = pending s
  /\ applicationMenu (app (close_window h s)) = applicationMenu (app s).
Proof.
  intros I Hw Hd. unfold close_window. rewrite Hw, Hd.
  rewrite (closed_clears s I h w Hw).
  destruct (bool_decide (focused _ = _)); destruct (kind w); simpl;
    destruct (_ =? 0)%nat; unfold window_all_closed;
    try destruct (negb _); repeat split; reflexivity.
Qed.

(** X12. The export functions read [mainWindow.webContents] again after the
    save dialog, without the guard of their first line.  In any state the
    process reaches, when the primary window is closed while the dialog is
    open and a path is chosen all the same, [mainWindow] is [null] by then:
    the [TypeError] of reading [webContents] of [null] is caught by the
    function, logged and shown in its error box, nothing is asked of a
    window and no file is written.  When a new primary window has been
    built in between (here by New Chat), the content that is asked for is
    that of the new window, not of the one the export was clicked in. *)
Theorem window_closed_behind_prompt :
  forall p evs k h fault path,
    live_main (run evs (boot p)) = Some h -> path <> EmptyString ->
    command_of k ∈ menu_commands (applicationMenu (app (run evs (boot p)))) ->
    (effects (run [ Click (command_of k) fault; Closed h;
                    Settle (length (pending (run evs (boot p))))
                      (Resolved (SaveDialogReturn false (Some path))) ]
                (run evs (boot p)))
     = effects (run evs (boot p))
       ++ [ prompt k h;
            ConsoleError (failureLog (texts k)) (Some (null_error "webContents"));
            ShowErrorBox (failureTitle (texts k))
              "Cannot read properties of null (reading 'webContents')" ]
     /\ pending (run [ Click (command_of k) fault; Closed h;
                       Settle (length (pending (run evs (boot p))))
                         (Resolved (SaveDialogReturn false (Some path))) ]
                   (run evs (boot p)))
        = pending (run evs (boot p)) ++ [None])
    /\ (NewChat ∈ menu_commands (applicationMenu (app (run evs (boot p)))) ->
        effects (run [ Click (command_of k) fault; Closed h; Click NewChat fault;
                       Settle (length (pending (run evs (boot p))))
                         (Resolved (SaveDialogReturn false (Some path))) ]
                   (run evs (boot p)))
        = effects (run evs (boot p))
          ++ [ prompt k h;
               request_content k (length (windows (run evs (boot p)))) ]).
Proof.
  intros p evs k h fault path H Hne Hin. set (s := run evs (boot p)) in *.
  pose proof (reachable_consistent p evs) as I. fold s in I.
  destruct (live_main_inv s h H) as (Hm & w & Hw & Hd).
  destruct (slot_open s I PrimaryWindow h Hm) as (w' & Hw' & _ & Hk).
  rewrite Hw in Hw'. injection Hw' as <-.
  set (s1 := set_pending (pending s ++ [Some (AwaitSaveDialog k)]) (log (prompt k h) s)).
  assert (E1 : step s (Click (command_of k) fault) = s1).
  { unfold step. rewrite bool_decide_eq_true_2 by exact Hin.
    apply click_export, H. }
  assert (I1 : consistent s1) by (rewrite <- E1; apply step_consistent, I).
  destruct (close_window_facts h w s1 I1 Hw Hd) as (Cw & Cs & Ce & Cp & Ca).
  rewrite Hk in Cs. simpl in Cs.
  split.
  - unfold run, fold_left. rewrite E1. unfold step.
    rewrite (settle_last (pending s) (AwaitSaveDialog k) _ (close_window h s1)
               (fst (export_catch k (null_error "webContents") (close_window h s1)))
               (Returned Caught) Cp).
    + simpl. rewrite Ce. simpl. rewrite <- !app_assoc. auto.
    + simpl. unfold mainWindow_webContents. rewrite Cs.
      destruct path as [|c r]; [contradiction|reflexivity].
  - intros Hnew. unfold run, fold_left. rewrite E1.
    set (s2 := step s1 (Closed h)).
    assert (E3 : step s2 (Click NewChat fault) = createMainWindow s2).
    { unfold step at 1. rewrite bool_decide_eq_true_2.
      - unfold click, newChat, live_main. unfold s2, step. now rewrite Cs.
      - unfold s2, step. rewrite Ca. exact Hnew. }
    rewrite E3. unfold step at 1.
    assert (El : length (windows s2) = length (windows s))
      by (unfold s2, step; rewrite Cw; apply length_alter).
    assert (Hl : live_main (createMainWindow s2) = Some (length (windows s))).
    { rewrite createMainWindow_eq, <- El.
      apply (live_main_intro _ _ fresh_main); try reflexivity.
      simpl. apply list_lookup_middle. reflexivity. }
    rewrite (settle_last (pending s) (AwaitSaveDialog k) _ (createMainWindow s2)
               (log (request_content k (length (windows s))) (createMainWindow s2))
               (Suspended (AwaitContent k path))).
    + transitivity (effects (createMainWindow s2)
                    ++ [request_content k (length (windows s))]); [reflexivity|].
      rewrite quiet_createMainWindow. unfold s2, step. rewrite Ce.
      simpl. rewrite <- !app_assoc. reflexivity.
    + rewrite createMainWindow_eq. simpl. unfold s2, step. exact Cp.
    + simpl. rewrite (mainWindow_webContents_live _ _ _ Hl eq_refl eq_refl).
      destruct path as [|c r]; [contradiction|reflexivity].
Qed.

Lemma window_closed_behind_prompt_witness :
  live_main (run [Ready true] (boot "darwin")) = Some 0
  /\ effects (run [ Click SaveChatAsPdf None; Closed 0;
                    Settle 0 (Resolved (SaveDialogReturn false (Some "/tmp/chat.pdf"))) ]
                (run [Ready true] (boot "darwin")))
     = [ ShowSaveDialog 0 "Save Chat as PDF" "chatgpt-chat.pdf" "PDF" "pdf";
         ConsoleError "Failed to save PDF:" (Some (null_error "webContents"));
         ShowErrorBox "Save Chat as PDF Failed"
           "Cannot read properties of null (reading 'webContents')" ]
  /\ effects (run [ Click SaveChatAsPdf None; Closed 0; Click NewChat None;
                    Settle 0 (Resolved (SaveDialogReturn false (Some "/tmp/chat.pdf"))) ]
                (run [Ready true] (boot "darwin")))
     = [ ShowSaveDialog 0 "Save Chat as PDF" "chatgpt-chat.pdf" "PDF" "pdf";
         PrintToPDF 1 "A4" true ].
Proof.
  split; [reflexivity|].
  assert (Hin : command_of Pdf
                ∈ menu_commands (applicationMenu (app (run [Ready true] (boot "darwin")))))
    by (apply list_elem_of_In; vm_compute; tauto).
  assert (Hnew : NewChat
                 ∈ menu_commands (applicationMenu (app (run [Ready true] (boot "darwin")))))
    by (apply list_elem_of_In; vm_compute; tauto).
  destruct (window_closed_behind_prompt "darwin" [Ready true] Pdf 0 None "/tmp/chat.pdf"
              eq_refl ltac:(discriminate) Hin)
    as ((E & _) & E').
  split; [exact E|exact (E' Hnew)].
Defined.

(** ** What the global shortcut can be *)

Lemma shortcuts_whenReady ok s :
  globalShortcuts (app s) = [] ->
  globalShortcuts (app (whenReady ok (set_app (with_ready (app s)) s)))
  = if ok then [combo (platform s)] else [].
Proof.
  intros E. unfold whenReady, registerGlobalShortcuts, isMac, combo.
  rewrite createMainWindow_eq. destruct ok; simpl; rewrite ?E; reflexivity.
Qed.

Lemma shortcuts_of_registry s s' :
  registry s' = registry s ->
  globalShortcuts (app s') = globalShortcuts (app s) /\ ready (app s') = ready (app s).
Proof. unfold registry. intros E. injection E as _ Er _ _ Eg _. auto. Qed.

Lemma shortcuts_step_other s e :
  is_Ready e = false -> e <> WillQuit ->
  globalShortcuts (app (step s e)) = globalShortcuts (app s)
  /\ ready (app (step s e)) = ready (app s).
Proof. intros Hr Hq. apply shortcuts_of_registry, registry_step; assumption. Qed.

Ltac other_event s :=
  match goal with
  | |- context [step s ?e] =>
      let Eg := fresh "Eg" in
      let Er := fresh "Er" in
      destruct (shortcuts_step_other s e eq_refl ltac:(discriminate)) as [Eg Er];
      rewrite ?Eg, ?Er
  end.

Lemma shortcuts_step s e :
  consistent s ->
  globalShortcuts (app s) = [] \/ globalShortcuts (app s) = [combo (platform s)] ->
  globalShortcuts (app (step s e)) = []
  \/ globalShortcuts (app (step s e)) = [combo (platform (step s e))].
Proof.
  intros I H. rewrite platform_step. destruct e; try (other_event s; exact H).
  - simpl. destruct (ready (app s)) eqn:Hr; [exact H|].
    destruct (before_ready s I Hr) as (_ & _ & Eg & _).
    rewrite (shortcuts_whenReady _ s Eg). destruct registered; auto.
  - left. reflexivity.
Qed.

Lemma shortcuts_run p evs :
  globalShortcuts (app (run evs (boot p))) = []
  \/ globalShortcuts (app (run evs (boot p))) = [combo p].
Proof.
  assert (H : globalShortcuts (app (run evs (boot p))) = []
              \/ globalShortcuts (app (run evs (boot p)))
                 = [combo (platform (run evs (boot p)))]).
  { induction evs as [|e evs IH] using rev_ind; [left; reflexivity|].
    unfold run in *. rewrite fold_left_app. simpl.
    apply shortcuts_step; [apply reachable_consistent|exact IH]. }
  rewrite platform_run in H. exact H.
Qed.

(** Once the application is ready and has released its shortcuts, none is
    registered again. *)
Lemma shortcuts_released evs s :
  ready (app s) = true -> globalShortcuts (app s) = [] ->
  globalShortcuts (app (run evs s)) = [].
Proof.
  revert s. induction evs as [|e evs IH]; intros s Hr Hg; [exact Hg|].
  simpl. apply IH.
  - destruct e; try (other_event s; exact Hr).
    + simpl. now rewrite Hr.
    + exact Hr.
  - destruct e; try (other_event s; exact Hg).
    + simpl. now rewrite Hr.
    + reflexivity.
Qed.

(** X13. The only accelerator the process ever has registered as a global
    shortcut is the one of its platform ([Control+Option+G] on macOS,
    [Control+Alt+G] elsewhere), and at most once: whatever the events, any
    other global key combination changes nothing.  Once the application is
    ready, after ['will-quit'] nothing is registered any more, whatever
    follows, so the combination of the platform changes nothing either. *)
Theorem global_shortcut_registry :
  (forall p evs,
     globalShortcuts (app (run evs (boot p))) = []
     \/ globalShortcuts (app (run evs (boot p))) = [combo p])
  /\ (forall p evs a,
        a <> combo p -> step (run evs (boot p)) (Shortcut a) = run evs (boot p))
  /\ (forall p evs evs' a,
        ready (app (run evs (boot p))) = true ->
        globalShortcuts (app (run (evs ++ WillQuit :: evs') (boot p))) = []
        /\ step (run (evs ++ WillQuit :: evs') (boot p)) (Shortcut a)
           = run (evs ++ WillQuit :: evs') (boot p)).
Proof.
  split; [exact shortcuts_run|]. split.
  - intros p evs a Ha. simpl.
    destruct (shortcuts_run p evs) as [-> | ->]; [reflexivity|].
    rewrite bool_decide_eq_false_2; [reflexivity|].
    intros Hin. apply list_elem_of_singleton in Hin. contradiction.
  - intros p evs evs' a Hr.
    assert (E : globalShortcuts (app (run (evs ++ WillQuit :: evs') (boot p))) = []).
    { unfold run. rewrite fold_left_app. simpl.
      apply (shortcuts_released evs'); [exact Hr|reflexivity]. }
    split; [exact E|]. simpl. rewrite E. reflexivity.
Qed.

Lemma global_shortcut_registry_witness :
  globalShortcuts (app (run [Ready true] (boot "linux"))) = ["Control+Alt+G"]
  /\ step (run [Ready true; Closed 0] (boot "linux")) (Shortcut "Control+Option+G")
     = run [Ready true; Closed 0] (boot "linux")
  /\ step (run ([Ready true; Closed 0] ++ WillQuit :: [Activate]) (boot "linux"))
       (Shortcut "Control+Alt+G")
     = run ([Ready true; Closed 0] ++ WillQuit :: [Activate]) (boot "linux").
Proof.
  destruct global_shortcut_registry as (_ & H2 & H3).
  split; [reflexivity|]. split.
  - apply (H2 "linux" [Ready true; Closed 0] "Control+Option+G"). discriminate.
  - apply (H3 "linux" [Ready true; Closed 0] [Activate] "Control+Alt+G"). reflexivity.
Defined.

(** ** What an event does to the windows *)

Lemma touch_all (l : list BrowserWindow) : Forall2 touch l l.
Proof. induction l; constructor; [apply touch_none|assumption]. Qed.

Lemma touch_alter f h (l : list BrowserWindow) :
  (forall w, l !! h = Some w -> touch w (f w)) -> Forall2 touch l (alter f h l).
Proof.
  revert h. induction l as [|x l IH]; intros [|h] H; cbn; try constructor.
  - apply H. reflexivity.
  - apply touch_all.
  - apply touch_none.
  - apply IH. intros w Hw. apply H. exact Hw.
Qed.

Lemma evolved_refl l : evolved l l.
Proof. exists l, []. rewrite app_nil_r. auto using touch_all. Qed.

Lemma evolved_same s s' : windows s' = windows s -> evolved (windows s) (windows s').
Proof. intros ->. apply evolved_refl. Qed.

Lemma evolved_update h f s w :
  windows s !! h = Some w -> touch w (f w) ->
  evolved (windows s) (windows (update_window h f s)).
Proof.
  intros Hw Ht. exists (alter f h (windows s)), []. rewrite app_nil_r.
  split; [reflexivity|]. split; [|auto].
  apply touch_alter. intros w' Hw'. rewrite Hw in Hw'. injection Hw' as <-. exact Ht.
Qed.

Lemma evolved_createMainWindow s : evolved (windows s) (windows (createMainWindow s)).
Proof.
  rewrite createMainWindow_eq. exists (windows s), [fresh_main].
  auto using touch_all.
Qed.

Lemma evolved_createNotesWindow s : evolved (windows s) (windows (createNotesWindow s)).
Proof.
  destruct (live_notes s) as [h|] eqn:H.
  - unfold createNotesWindow. rewrite H. apply evolved_refl.
  - rewrite (createNotesWindow_eq s H). exists (windows s), [fresh_notes].
    auto using touch_all.
Qed.

Lemma evolved_ensureMainWindow s : evolved (windows s) (windows (ensureMainWindow s)).
Proof.
  unfold ensureMainWindow. destruct (live_main s) as [h|] eqn:H;
    [|apply evolved_createMainWindow].
  destruct (live_main_inv s h H) as (_ & w & Hw & Hd).
  destruct (isMinimized h s).
  - unfold show, focus, restore, update_window. simpl.
    rewrite (alter_alter_same _ _ (fun w => with_visible true (with_minimized false w)))
      by reflexivity.
    apply (evolved_update h _ s w Hw).
    apply (touch_then _ (with_minimized false w)); constructor; exact Hd.
  - apply (evolved_update h _ s w Hw), touch_show, Hd.
Qed.

Lemma evolved_click c fault s : evolved (windows s) (windows (click c fault s)).
Proof.
  destruct c; unfold click, newChat, copyChatUrl, openInBrowser,
    saveChatAsPdf, saveChatAsText, screenshotWindow, export_call, getZoomFactor, spawn;
    try apply evolved_createNotesWindow;
    try (destruct (live_main s) as [h|] eqn:H;
         [destruct (live_main_inv s h H) as (_ & w & Hw & Hd)
         |first [apply evolved_refl | apply evolved_createMainWindow
                | unfold resetWindowSize; rewrite H; apply evolved_refl]]);
    try (destruct (JS.falsy _); [apply evolved_refl|]);
    try destruct fault;
    try apply evolved_refl;
    try rewrite Hw;
    try rewrite (resetWindowSize_eq s h H);
    apply (evolved_update h _ s w Hw); constructor; exact Hd.
Qed.

Lemma evolved_close_window h s :
  consistent s -> evolved (windows s) (windows (close_window h s)).
Proof.
  intros I. destruct (windows s !! h) as [w|] eqn:Hw;
    [|unfold close_window; rewrite Hw; apply evolved_refl].
  destruct (destroyed w) eqn:Hd;
    [unfold close_window; rewrite Hw, Hd; apply evolved_refl|].
  destruct (close_window_facts h w s I Hw Hd) as (-> & _).
  apply (evolved_update h mark_destroyed s w Hw), touch_closed, Hd.
Qed.

Lemma forget_nothing w :
  once_ready_to_show w = [] -> with_once_ready_to_show [] w = w.
Proof. destruct w; simpl. now intros ->. Qed.

(** ['ready-to-show'] on an open window that is shown or waiting: its
    [once] listener, when it is still there, shows this very window. *)
Lemma ready_to_show_eq h w s :
  consistent s -> windows s !! h = Some w -> destroyed w = false ->
  shown_or_waiting w ->
  ready_to_show h s
  = if bool_decide (once_ready_to_show w = []) then s
    else set_focused (Some h)
           (update_window h (fun w => with_visible true (with_once_ready_to_show [] w)) s).
Proof.
  intros I Hw Hd G. unfold ready_to_show. rewrite Hw, Hd.
  destruct (G Hd) as [[E _]|[E Hk]]; rewrite E; simpl.
  - unfold update_window. rewrite (alter_fixed _ h _ w Hw) by now apply forget_nothing.
    apply set_windows_same.
  - pose proof (open_in_slot s I h w Hw Hd) as Hm. rewrite Hk in Hm. simpl in Hm.
    unfold run_listeners, run_listener, isDestroyed. simpl.
    rewrite Hm, list_lookup_alter_eq, Hw. simpl. rewrite Hd.
    unfold show, focus, update_window. simpl.
    rewrite (alter_alter_same _ _
               (fun w => with_visible true (with_once_ready_to_show [] w)))
      by reflexivity.
    reflexivity.
Qed.

Lemma evolved_ready_to_show h s :
  consistent s -> Forall shown_or_waiting (windows s) ->
  evolved (windows s) (windows (ready_to_show h s)).
Proof.
  intros I G. destruct (windows s !! h) as [w|] eqn:Hw;
    [|unfold ready_to_show; rewrite Hw; apply evolved_refl].
  destruct (destroyed w) eqn:Hd;
    [unfold ready_to_show; rewrite Hw, Hd; apply evolved_refl|].
  rewrite (ready_to_show_eq h w s I Hw Hd)
    by (eapply Forall_lookup_1; [exact G|exact Hw]).
  destruct (bool_decide _); [apply evolved_refl|].
  apply (evolved_update h _ s w Hw), touch_ready, Hd.
Qed.

(** Every event leaves the windows there were, touched or not, and builds
    at most one. *)
Lemma evolved_step s e :
  consistent s -> Forall shown_or_waiting (windows s) ->
  evolved (windows s) (windows (step s e)).
Proof.
  intros I G. destruct e; unfold step.
  - destruct (ready (app s)); [apply evolved_refl|].
    unfold whenReady, registerGlobalShortcuts. rewrite createMainWindow_eq.
    exists (windows s), [fresh_main]. split; [destruct registered; reflexivity|].
    auto using touch_all.
  - destruct (on_activate (app s)); [|apply evolved_refl].
    unfold activate. destruct (_ =? 0)%nat; [|apply evolved_refl].
    apply evolved_createMainWindow.
  - destruct (bool_decide _); [apply evolved_click|apply evolved_refl].
  - destruct (bool_decide _); [apply evolved_ensureMainWindow|apply evolved_refl].
  - now apply evolved_ready_to_show.
  - unfold isDestroyed. destruct (windows s !! h) as [w|] eqn:Hw; [|apply evolved_refl].
    destruct (destroyed w) eqn:Hd; [apply evolved_refl|].
    apply (evolved_update h _ s w Hw), touch_minimized, Hd.
  - now apply evolved_close_window.
  - apply evolved_same. apply (settle_frame s task r).
  - apply evolved_refl.
Qed.

Lemma evolved_Forall (P : BrowserWindow -> Prop) l l' :
  (forall w w', touch w w' -> P w -> P w') -> P fresh_main -> P fresh_notes ->
  evolved l l' -> Forall P l -> Forall P l'.
Proof.
  intros Ht Hm Hn (l1 & extra & -> & H2 & He) Hl. apply Forall_app. split.
  - induction H2 as [|w w' l l1 Hw _ IH]; [constructor|].
    inversion Hl; subst. constructor; eauto.
  - destruct He as [->|[->| ->]]; repeat constructor; assumption.
Qed.


Lemma touch_shown_or_waiting w w' :
  touch w w' -> shown_or_waiting w -> shown_or_waiting w'.
Proof.
  induction 1; intros G; auto;
    destruct w; unfold shown_or_waiting in *; simpl in *;
    intuition (auto; congruence).
Qed.


Lemma shown_or_waiting_step s e :
  consistent s -> Forall shown_or_waiting (windows s) ->
  Forall shown_or_waiting (windows (step s e)).
Proof.
  intros I G. apply (evolved_Forall _ (windows s)); try assumption.
  - apply touch_shown_or_waiting.
  - intros _. right. split; reflexivity.
  - intros _. left. split; reflexivity.
  - now apply evolved_step.
Qed.

Lemma shown_or_waiting_run evs s :
  consistent s -> Forall shown_or_waiting (windows s) ->
  Forall shown_or_waiting (windows (run evs s)).
Proof.
  revert s. induction evs as [|e evs IH]; intros s I G; [exact G|].
  simpl. apply IH; [now apply step_consistent|now apply shown_or_waiting_step].
Qed.


Lemma reachable_shown_or_waiting p evs :
  Forall shown_or_waiting (windows (run evs (boot p))).
Proof. apply shown_or_waiting_run; [apply consistent_boot|constructor]. Qed.





(** ** The zoom factor stays where it is *)

Lemma touch_zoom_one w w' :
  touch w w' ->
  zoomFactor (webContents w) = 1.0%float -> zoomFactor (webContents w') = 1.0%float.
Proof. induction 1; intros G; auto. Qed.

Lemma zoom_one_run evs s :
  consistent s -> Forall shown_or_waiting (windows s) ->
  Forall (fun w => zoomFactor (webContents w) = 1.0%float) (windows s) ->
  Forall (fun w => zoomFactor (webContents w) = 1.0%float) (windows (run evs s)).
Proof.
  revert s. induction evs as [|e evs IH]; intros s I G Z; [exact Z|].
  simpl. apply IH;
    [now apply step_consistent|now apply shown_or_waiting_step|].
  apply (evolved_Forall _ (windows s)); try assumption; try reflexivity.
  - apply touch_zoom_one.
  - now apply evolved_step.
Qed.

(** X16. No zoom factor ever moves.  A window is built at 1.0, Reset Zoom
    sets 1.0, and nothing else reaches [setZoomFactor]: the Zoom In and Zoom
    Out handlers leave it inside the function they hand to [getZoomFactor],
    which is never called.  So in every state the process reaches, whatever
    was clicked and in whatever order, every window has the factor 1.0. *)
Theorem zoom_stays_at_one :
  forall p evs h w,
    windows (run evs (boot p)) !! h = Some w ->
    zoomFactor (webContents w) = 1.0%float /\ zoom h (run evs (boot p)) = 1.0%float.
Proof.
  intros p evs h w Hw.
  assert (H : zoomFactor (webContents w) = 1.0%float).
  { apply (Forall_lookup_1 _ _ _ _
             (zoom_one_run evs (boot p) (consistent_boot p)
                ltac:(constructor) ltac:(constructor)) Hw). }
  split; [exact H|]. unfold zoom. rewrite Hw. exact H.
Qed.

Lemma zoom_stays_at_one_witness :
  (exists w,
     windows (run [ Ready true; Click ZoomIn None; Click ZoomIn None;
                    Click ZoomOut None; Click NewChat None; Click ZoomIn None;
                    Click ResetZoom None; Click ZoomOut None ]
                (boot "linux")) !! 0 = Some w)
  /\ zoom 0 (run [ Ready true; Click ZoomIn None; Click ZoomIn None;
                   Click ZoomOut None; Click NewChat None; Click ZoomIn None;
                   Click ResetZoom None; Click ZoomOut None ]
               (boot "linux")) = 1.0%float.
Proof.
  assert (Hw : exists w,
             windows (run [ Ready true; Click ZoomIn None; Click ZoomIn None;
                            Click ZoomOut None; Click NewChat None; Click ZoomIn None;
                            Click ResetZoom None; Click ZoomOut None ]
                        (boot "linux")) !! 0 = Some w)
    by (eexists; vm_compute; reflexivity).
  split; [exact Hw|]. destruct Hw as [w Hw].
  destruct (zoom_stays_at_one "linux" _ 0 w Hw) as [_ E].
  exact E.
Defined.

(** ** The global shortcut brings the primary window *)

Lemma ready_after h w s :
  consistent s -> Forall shown_or_waiting (windows s) ->
  windows s !! h = Some w -> destroyed w = false -> minimized w = false ->
  (once_ready_to_show w = [] -> focused s = Some h) ->
  isVisible h (step s (ReadyToShow h)) = true
  /\ focused (step s (ReadyToShow h)) = Some h
  /\ isMinimized h (step s (ReadyToShow h)) = false.
Proof.
  intros I G Hw Hd Hmin Hf.
  pose proof (Forall_lookup_1 _ _ _ _ G Hw) as Gw.
  unfold step. rewrite (ready_to_show_eq h w s I Hw Hd Gw).
  unfold isVisible, isMinimized.
  destruct (Gw Hd) as [[E V]|[E K]]; rewrite E.
  - rewrite bool_decide_eq_true_2 by reflexivity. rewrite Hw. auto.
  - rewrite bool_decide_eq_false_2 by discriminate. simpl.
    rewrite list_lookup_alter_eq, Hw. simpl. auto.
Qed.

(** X17. The global shortcut, from any state the process reaches in which
    it is registered: afterwards there is a live primary window, the one
    there was or else a new one.  The one there was is restored, shown and
    focused at once; a new one is built hidden.  In both cases, once that
    window is ready to show, it is on the screen, focused and not
    minimized. *)
Theorem shortcut_brings_primary_window :
  forall p evs,
    combo p ∈ globalShortcuts (app (run evs (boot p))) ->
    exists h,
      live_main (step (run evs (boot p)) (Shortcut (combo p))) = Some h
      /\ (forall h0, live_main (run evs (boot p)) = Some h0 ->
            h = h0
            /\ isVisible h (step (run evs (boot p)) (Shortcut (combo p))) = true
            /\ focused (step (run evs (boot p)) (Shortcut (combo p))) = Some h)
      /\ (live_main (run evs (boot p)) = None ->
            h = length (windows (run evs (boot p)))
            /\ isVisible h (step (run evs (boot p)) (Shortcut (combo p))) = false)
      /\ isVisible h (run [Shortcut (combo p); ReadyToShow h] (run evs (boot p))) = true
      /\ focused (run [Shortcut (combo p); ReadyToShow h] (run evs (boot p))) = Some h
      /\ isMinimized h (run [Shortcut (combo p); ReadyToShow h] (run evs (boot p)))
         = false.
Proof.
  intros p evs Hin. set (s := run evs (boot p)) in *.
  pose proof (reachable_consistent p evs) as I. fold s in I.
  pose proof (reachable_shown_or_waiting p evs) as G. fold s in G.
  assert (E1 : step s (Shortcut (combo p)) = ensureMainWindow s)
    by (unfold step; now rewrite bool_decide_eq_true_2).
  pose proof (step_consistent s (Shortcut (combo p)) I) as I1.
  pose proof (shown_or_waiting_step s (Shortcut (combo p)) I G) as G1.
  unfold run, fold_left. rewrite E1 in *.
  destruct (live_main s) as [h|] eqn:H.
  - destruct (live_main_inv s h H) as (Hm & w & Hw & Hd).
    assert (F : exists w1,
               windows (ensureMainWindow s) !! h = Some w1
               /\ destroyed w1 = false /\ minimized w1 = false /\ visible w1 = true
               /\ focused (ensureMainWindow s) = Some h).
    { unfold ensureMainWindow. rewrite H. unfold isMinimized. rewrite Hw.
      destruct (minimized w) eqn:Emin; eexists; simpl;
        rewrite ?list_lookup_alter_eq, ?Hw; simpl;
        rewrite ?list_lookup_alter_eq, ?Hw; simpl; auto. }
    destruct F as (w1 & Hw1 & Hd1 & Hmin1 & V1 & F1).
    exists h. split; [|split; [|split; [discriminate|]]].
    + rewrite (live_main_skeleton _ _ (skeleton_ensure_live s h H)). exact H.
    + intros h0 E0. injection E0 as <-. unfold isVisible. rewrite Hw1. auto.
    + apply (ready_after h w1 _ I1 G1 Hw1 Hd1 Hmin1). intros _. exact F1.
  - assert (E2 : ensureMainWindow s = createMainWindow s)
      by (unfold ensureMainWindow; now rewrite H).
    rewrite E2 in *.
    assert (Hw1 : windows (createMainWindow s) !! length (windows s) = Some fresh_main).
    { rewrite createMainWindow_eq. simpl. apply list_lookup_middle. reflexivity. }
    exists (length (windows s)). split; [|split; [discriminate|split]].
    + rewrite createMainWindow_eq.
      apply (live_main_intro _ _ fresh_main); try reflexivity.
      simpl. apply list_lookup_middle. reflexivity.
    + intros _. split; [reflexivity|]. unfold isVisible. rewrite Hw1. reflexivity.
    + apply (ready_after _ fresh_main _ I1 G1 Hw1); try reflexivity. discriminate.
Qed.

Lemma shortcut_brings_primary_window_witness :
  live_main (step (run [Ready true; ReadyToShow 0; Closed 0] (boot "darwin"))
               (Shortcut "Control+Option+G")) = Some 1
  /\ isVisible 1 (step (run [Ready true; ReadyToShow 0; Closed 0] (boot "darwin"))
                    (Shortcut "Control+Option+G")) = false
  /\ isVisible 1 (run [Shortcut "Control+Option+G"; ReadyToShow 1]
                    (run [Ready true; ReadyToShow 0; Closed 0] (boot "darwin"))) = true
  /\ focused (run [Shortcut "Control+Option+G"; ReadyToShow 1]
                (run [Ready true; ReadyToShow 0; Closed 0] (boot "darwin"))) = Some 1.
Proof.
  assert (Hin : combo "darwin"
                ∈ globalShortcuts
                    (app (run [Ready true; ReadyToShow 0; Closed 0] (boot "darwin"))))
    by (apply list_elem_of_In; vm_compute; tauto).
  destruct (shortcut_brings_primary_window "darwin"
              [Ready true; ReadyToShow 0; Closed 0] Hin)
    as (h & E1 & _ & E3 & E4 & E5 & _).
  destruct (E3 eq_refl) as [-> E3'].
  split; [exact E1|]. split; [exact E3'|]. split; [exact E4|exact E5].
Defined.

(** ** The menu is built once *)

Lemma menu_of_registry s s' :
  registry s' = registry s ->
  ready (app s') = ready (app s) /\ name (app s') = name (app s)
  /\ applicationMenu (app s') = applicationMenu (app s).
Proof. unfold registry. intros E. injection E as _ Er En Em _ _. auto. Qed.

Lemma menu_step s e :
  (name (app s), applicationMenu (app s))
  = (if ready (app s) then ("GPT", template (isMac s) "GPT") else ("Electron", [])) ->
  (name (app (step s e)), applicationMenu (app (step s e)))
  = (if ready (app (step s e)) then ("GPT", template (isMac (step s e)) "GPT")
     else ("Electron", [])).
Proof.
  intros H. unfold isMac. rewrite platform_step. fold (isMac s).
  destruct e;
    try (match goal with
         | |- context [step s ?e] =>
             destruct (menu_of_registry s _
                         (registry_step s e eq_refl ltac:(discriminate)))
               as (Er & En & Em); rewrite Er, En, Em; exact H
         end).
  - simpl. destruct (ready (app s)) eqn:Hr; [now rewrite Hr|].
    unfold whenReady, registerGlobalShortcuts, createAppMenu.
    rewrite createMainWindow_eq. destruct registered; reflexivity.
  - exact H.
Qed.

(** X18. The menu is a function of the platform, built once: [app.setName]
    comes before [createAppMenu], so from start-up on the application is
    named GPT and its menu is the template for its platform under that name
    (on macOS the application submenu is labelled GPT); no later event
    changes either.  The template offers every command on macOS, and every
    command but the always-on-top toggle and the notes window elsewhere. *)
Theorem menu_built_once :
  (forall p evs,
     (name (app (run evs (boot p))), applicationMenu (app (run evs (boot p))))
     = if ready (app (run evs (boot p)))
       then ("GPT", template (String.eqb p "darwin") "GPT")
       else ("Electron", []))
  /\ (forall isMac appName c,
        c ∈ menu_commands (template isMac appName)
        <-> isMac = true \/ (c <> AlwaysOnTop /\ c <> NotesWindowItem)).
Proof.
  split.
  - intros p evs.
    assert (H : (name (app (run evs (boot p))), applicationMenu (app (run evs (boot p))))
                = if ready (app (run evs (boot p)))
                  then ("GPT", template (isMac (run evs (boot p))) "GPT")
                  else ("Electron", [])).
    { induction evs as [|e evs IH] using rev_ind; [reflexivity|].
      unfold run in *. rewrite fold_left_app. simpl. apply menu_step, IH. }
    unfold isMac in H. rewrite platform_run in H. exact H.
  - intros isMac appName c. rewrite list_elem_of_In.
    destruct isMac, c; simpl; split; intros H;
      intuition (try discriminate; try congruence).
Qed.

(** ** Calls that wait do not disturb each other *)

Lemma pending_run_listener l s : pending (run_listener l s) = pending s.
Proof.
  destruct l; try reflexivity. unfold run_listener.
  destruct (mainWindow s) as [h|]; [|reflexivity].
  destruct (isDestroyed h s); reflexivity.
Qed.

Lemma pending_run_listeners ls s : pending (run_listeners ls s) = pending s.
Proof.
  revert s. induction ls as [|l ls IH]; intros s; [reflexivity|].
  unfold run_listeners in *. simpl. rewrite IH. apply pending_run_listener.
Qed.

Lemma pending_createMainWindow s : pending (createMainWindow s) = pending s.
Proof. rewrite createMainWindow_eq. reflexivity. Qed.

Lemma pending_createNotesWindow s : pending (createNotesWindow s) = pending s.
Proof.
  destruct (live_notes s) as [h|] eqn:H.
  - unfold createNotesWindow. rewrite H. reflexivity.
  - rewrite (createNotesWindow_eq s H). reflexivity.
Qed.

Lemma pending_ensureMainWindow s : pending (ensureMainWindow s) = pending s.
Proof.
  unfold ensureMainWindow. destruct (live_main s) as [h|].
  - destruct (isMinimized h s); reflexivity.
  - apply pending_createMainWindow.
Qed.

(** A click leaves the calls that wait as they are, and adds at most its
    own. *)
Lemma pending_click c fault s :
  exists more, pending (click c fault s) = pending s ++ more.
Proof.
  destruct c; unfold click, newChat, copyChatUrl, openInBrowser,
    saveChatAsPdf, saveChatAsText, screenshotWindow, export_call, resetWindowSize,
    getZoomFactor, spawn;
    try (exists []; rewrite app_nil_r; apply pending_createNotesWindow);
    try (destruct (live_main s) as [h|];
         [|exists []; rewrite app_nil_r;
           first [reflexivity | apply pending_createMainWindow]]);
    try (destruct (JS.falsy _); [exists []; rewrite app_nil_r; reflexivity|]);
    try (destruct (windows s !! h); [|exists []; rewrite app_nil_r; reflexivity]);
    try destruct fault;
    first [exists []; rewrite app_nil_r; reflexivity | eexists; reflexivity].
Qed.

Lemma pending_close_window h s : pending (close_window h s) = pending s.
Proof.
  unfold close_window. destruct (windows s !! h) as [w|]; [|reflexivity].
  destruct (destroyed w); [reflexivity|].
  set (s2 := if bool_decide _ then _ else _).
  assert (E2 : pending s2 = pending s)
    by (unfold s2; destruct (bool_decide _); reflexivity).
  rewrite <- E2, <- (pending_run_listeners (on_closed w) s2).
  destruct (_ =? 0)%nat; [|reflexivity].
  unfold window_all_closed. destruct (negb _); reflexivity.
Qed.

Lemma pending_ready_to_show h s : pending (ready_to_show h s) = pending s.
Proof.
  unfold ready_to_show. destruct (windows s !! h) as [w|]; [|reflexivity].
  destruct (destroyed w); [reflexivity|].
  rewrite pending_run_listeners. reflexivity.
Qed.

Lemma resume_never_throws c a s s' d :
  resume c a s = Some (s', d) -> forall err, d <> Threw err.
Proof.
  unfold resume, export_catch, openInBrowser_settled. intros H err.
  destruct c, a as [[]|]; try discriminate H;
    repeat match type of H with
           | context [if ?b then _ else _] => destruct b
           | context [match ?x with inl _ => _ | inr _ => _ end] => destruct x
           end;
    injection H as <- <-; discriminate.
Qed.

(** An answer takes its call off the list, and adds at most the call's next
    [await]. *)
Lemma pending_settle task a s c s' d :
  pending s !! task = Some (Some c) -> resume c a s = Some (s', d) ->
  exists more, pending (settle task a s) = <[task := None]> (pending s) ++ more.
Proof.
  intros Hp Hr. unfold settle. rewrite Hp, Hr.
  rewrite (frame_pending _ _ (frame_resume c a s s' d Hr)).
  destruct d as [c'|via|err].
  - eexists. reflexivity.
  - exists []. rewrite app_nil_r. reflexivity.
  - destruct (resume_never_throws c a s s' _ Hr err eq_refl).
Qed.

Lemma pending_step s e :
  (forall task a, e <> Settle task a) ->
  exists more, pending (step s e) = pending s ++ more.
Proof.
  intros He.
  assert (Same : forall s', pending s' = pending s ->
                            exists more, pending s' = pending s ++ more)
    by (intros s' ->; exists []; now rewrite app_nil_r).
  destruct e; unfold step.
  - destruct (ready (app s)); [now apply Same|]. apply Same.
    unfold whenReady, registerGlobalShortcuts. rewrite createMainWindow_eq.
    destruct registered; reflexivity.
  - destruct (on_activate (app s)); [|now apply Same].
    unfold activate. destruct (_ =? 0)%nat; [|now apply Same].
    apply Same, pending_createMainWindow.
  - destruct (bool_decide _); [apply pending_click|now apply Same].
  - destruct (bool_decide _); [|now apply Same]. apply Same, pending_ensureMainWindow.
  - apply Same, pending_ready_to_show.
  - destruct (isDestroyed h s); now apply Same.
  - apply Same, pending_close_window.
  - destruct (He task r eq_refl).
  - now apply Same.
Qed.

(** X19. Calls that wait do not disturb each other.  A suspended call (an
    export at one of its [await]s, or the [.catch] of [openInBrowser]) stays
    on the list as it is, with its kind and its path, through every event
    that is not its own answer: clicks, other calls' answers, the window
    closing, the request to quit.  Its own answer takes it off the list, so
    a second answer to the same call changes nothing; and the answer with the
    content is written to the path chosen in this call's own dialog, whatever
    else is waiting. *)
Theorem pending_calls_keep_apart :
  forall s task c,
    pending s !! task = Some (Some c) ->
    (forall e, (forall a, e <> Settle task a) ->
               pending (step s e) !! task = Some (Some c))
    /\ (forall a s' d, resume c a s = Some (s', d) ->
          pending (step s (Settle task a)) !! task = Some None
          /\ forall a', step (step s (Settle task a)) (Settle task a')
                        = step s (Settle task a))
    /\ (forall k path data, c = AwaitContent k path ->
          emitted s (step s (Settle task (Resolved (Content data))))
          = [write_request k path data]).
Proof.
  intros s task c Hp.
  pose proof (lookup_lt_Some _ _ _ Hp) as Hlt.
  split; [|split].
  - intros e He.
    assert (Hcase : (exists task' a, e = Settle task' a)
                    \/ (forall task' a, e <> Settle task' a))
      by (destruct e; first [left; eauto; fail | right; intros; discriminate]).
    destruct Hcase as [(task' & a & ->)|Hn].
    + assert (Hne : task' <> task) by (intros ->; now apply (He a)).
      unfold step, settle.
      destruct (pending s !! task') as [[c'|]|] eqn:Hp'; try exact Hp.
      destruct (resume c' a s) as [[s' d]|] eqn:Hr; [|exact Hp].
      destruct (pending_settle task' a s c' s' d Hp' Hr) as (more & E).
      unfold settle in E. rewrite Hp', Hr in E. rewrite E.
      rewrite lookup_app_l by now rewrite length_insert.
      rewrite list_lookup_insert_ne by exact Hne. exact Hp.
    + destruct (pending_step s e Hn) as (more & E).
      rewrite E, lookup_app_l by exact Hlt. exact Hp.
  - intros a s' d Hr.
    destruct (pending_settle task a s c s' d Hp Hr) as (more & E).
    assert (Hn : pending (step s (Settle task a)) !! task = Some None).
    { unfold step. rewrite E, lookup_app_l by now rewrite length_insert.
      now apply list_lookup_insert_eq. }
    split; [exact Hn|]. intros a'. unfold step at 1. unfold settle at 1.
    now rewrite Hn.
  - intros k path data ->. unfold step, settle. rewrite Hp. simpl.
    unfold emitted. simpl. apply drop_app_length.
Qed.

Lemma pending_calls_keep_apart_witness :
  pending (run [ Ready true; Click SaveChatAsPdf None; Click SaveChatAsText None;
                 Settle 1 (Resolved (SaveDialogReturn false (Some "/tmp/b.txt")));
                 Settle 0 (Resolved (SaveDialogReturn false (Some "/tmp/a.pdf"))) ]
             (boot "darwin")) !! 2
  = Some (Some (AwaitContent Text "/tmp/b.txt"))
  /\ emitted
       (run [ Ready true; Click SaveChatAsPdf None; Click SaveChatAsText None;
              Settle 1 (Resolved (SaveDialogReturn false (Some "/tmp/b.txt")));
              Settle 0 (Resolved (SaveDialogReturn false (Some "/tmp/a.pdf"))) ]
          (boot "darwin"))
       (step (run [ Ready true; Click SaveChatAsPdf None; Click SaveChatAsText None;
                    Settle 1 (Resolved (SaveDialogReturn false (Some "/tmp/b.txt")));
                    Settle 0 (Resolved (SaveDialogReturn false (Some "/tmp/a.pdf"))) ]
                (boot "darwin"))
          (Settle 2 (Resolved (Content "Hello"))))
     = [WriteFile "/tmp/b.txt" "Hello" (Some "utf8")]
  /\ pending (step (run [ Ready true; Click SaveChatAsPdf None;
                          Click SaveChatAsText None;
                          Settle 1 (Resolved (SaveDialogReturn false (Some "/tmp/b.txt")));
                          Settle 0 (Resolved (SaveDialogReturn false (Some "/tmp/a.pdf"))) ]
                      (boot "darwin"))
                (Closed 0)) !! 2
     = Some (Some (AwaitContent Text "/tmp/b.txt")).
Proof.
  split; [reflexivity|].
  destruct (pending_calls_keep_apart
              (run [ Ready true; Click SaveChatAsPdf None; Click SaveChatAsText None;
                     Settle 1 (Resolved (SaveDialogReturn false (Some "/tmp/b.txt")));
                     Settle 0 (Resolved (SaveDialogReturn false (Some "/tmp/a.pdf"))) ]
                 (boot "darwin"))
              2 (AwaitContent Text "/tmp/b.txt") eq_refl)
    as (H1 & _ & H3).
  split.
  - exact (H3 Text "/tmp/b.txt" "Hello" eq_refl).
  - apply (H1 (Closed 0)). discriminate.
Defined.
